(** * Agent performance dashboard: metric derivation, summary cards,
      chart callbacks and the intervention rules of [dashboard.py].

    The data frame [df] is an ordered list of rows (its default integer
    index is the position in the list).  Integer columns are [Z]; float
    arithmetic is IEEE binary64, computed with the standard library's
    [SpecFloat] operations, and a float column holds the rational value
    of each number; Python exceptions are the [Err] branch of [Result]. *)

From Stdlib Require Import ZArith QArith Qminmax Qabs List String Ascii Bool Lia.
From Stdlib Require Import SpecFloat Qpower Lqa.
From Stdlib Require Import Permutation Sorted.
Import ListNotations.

Open Scope string_scope.
Open Scope list_scope.
Open Scope Z_scope.

(** ** Exceptions and fallible results *)

Inductive exception : Type :=
| ZeroDivisionError
| IndexError
| KeyError
| ValueError
| SelectionNotFound.
(* [SelectionNotFound] is the condition named by the specification; no
   statement of dashboard.py raises it. *)

Inductive Result (A : Type) : Type :=
| Ok (a : A)
| Err (e : exception).
Arguments Ok {A} a.
Arguments Err {A} e.

Definition bind {A B : Type} (m : Result A) (k : A -> Result B) : Result B :=
  match m with
  | Ok a => k a
  | Err e => Err e
  end.

Notation "x <- m ;; k" := (bind m (fun x => k))
  (at level 61, m at next level, right associativity).

(** ** Dates as pandas parses them *)

Inductive Month : Type :=
| Jan | Feb | Mar | Apr | May | Jun | Jul | Aug | Sep | Oct | Nov | Dec.

(** [Timestamp.month]: the calendar month number. *)
Definition month_number (m : Month) : Z :=
  match m with
  | Jan => 1 | Feb => 2 | Mar => 3 | Apr => 4 | May => 5 | Jun => 6
  | Jul => 7 | Aug => 8 | Sep => 9 | Oct => 10 | Nov => 11 | Dec => 12
  end.

Record Timestamp : Type := mkTimestamp {
  ts_year : Z;
  ts_month : Month;
  ts_day : Z
}.

(** A CSV cell of a date column: [None] is an empty field (read as NaN). *)
Definition Cell : Type := option string.

(** ** Rows *)

(** A row as [pd.read_csv] delivers it. *)
Record RawRecord : Type := mkRaw {
  csv_agent_code : string;
  csv_agent_join_month : Cell;
  csv_first_policy_sold_month : Cell;
  csv_new_policy_count : Z;
  csv_unique_proposal : Z;
  csv_net_income : Q
}.

(** A row of [df] after lines 14-16 added the two derived columns. *)
Record AgentRecord : Type := mkAgent {
  agent_code : string;
  agent_join_month : Cell;
  first_policy_sold_month : Cell;
  new_policy_count : Z;
  unique_proposal : Z;
  net_income : Q;
  months_to_first_sale : Z;
  risk_score : Q
}.

Definition DataFrame : Type := list AgentRecord.

(** ** Metric derivation (lines 14-16) *)

(** Python floats are IEEE binary64 numbers: 53 bits of precision,
    exponents up to 1024.  [float_value] is the rational a number stands
    for; the infinities and NaN, which int64 counts never produce, are
    read as 0. *)
Definition float_value (f : spec_float) : Q :=
  match f with
  | S754_finite s m e =>
      (inject_Z (if s then Z.neg m else Z.pos m) * 2 ^ e)%Q
  | _ => 0%Q
  end.

(** An integer operand of a division, taken exactly. *)
Definition float_of_int (x : Z) : spec_float :=
  match x with
  | 0 => S754_zero false
  | Z.pos p => S754_finite false p 0
  | Z.neg p => S754_finite true p 0
  end.

(** Python's [a / b] on integers: ZeroDivisionError for a zero divisor,
    otherwise the exact quotient rounded once to the nearest binary64
    number.  The operands are int64 values, whose quotients are finite. *)
Definition truediv (a b : Z) : Result spec_float :=
  if b =? 0 then Err ZeroDivisionError
  else Ok (SFdiv 53 1024 (float_of_int a) (float_of_int b)).

(** The float 1.0. *)
Definition float_one : spec_float :=
  S754_finite false 4503599627370496 (-52).

(** Python's two-argument [min(a, b)]: [b] when [b < a], otherwise [a]. *)
Definition py_min (a b : spec_float) : spec_float :=
  if SFltb b a then b else a.

(** [lambda x: 1 - min(x / 10, 1)].  The integer 1 is compared and
    subtracted as the float 1.0; where [min] returns the integer itself
    the difference is the integer 0, stored in the float column as 0.0. *)
Definition risk_float (x : Z) : Result spec_float :=
  v <- truediv x 10 ;;
  Ok (SFsub 53 1024 float_one (py_min v float_one)).

Definition risk_score_of (x : Z) : Result Q :=
  f <- risk_float x ;;
  Ok (float_value f).

(** The value line 16 stores for a count, spelt out. *)
Definition risk_q (x : Z) : Q :=
  float_value
    (SFsub 53 1024 float_one
       (py_min (SFdiv 53 1024 (float_of_int x) (float_of_int 10)) float_one)).

(** [.dt.month] on a column that may hold NaT: NaT gives NaN. *)
Definition dt_month (t : option Timestamp) : option Z :=
  match t with
  | Some ts => Some (month_number (ts_month ts))
  | None => None
  end.

(** Subtraction of two columns; NaN on either side gives NaN. *)
Definition nan_sub (a b : option Z) : option Z :=
  match a, b with
  | Some x, Some y => Some (x - y)
  | _, _ => None
  end.

(** [.fillna(d)] *)
Definition fillna (d : Z) (v : option Z) : Z :=
  match v with
  | Some x => x
  | None => d
  end.

Section Deriver.

(** [pd.to_datetime(column, errors='coerce')] settles one format per
    column and turns every text it cannot read into NaT; the two date
    columns are converted by separate calls. *)
Variable parse_sold : string -> option Timestamp.
Variable parse_join : string -> option Timestamp.

Definition to_datetime (parse : string -> option Timestamp) (c : Cell)
  : option Timestamp :=
  match c with
  | Some s => parse s
  | None => None
  end.

(** Lines 14-15 on one row. *)
Definition months_to_first_sale_of (r : RawRecord) : Z :=
  fillna 0
    (nan_sub
       (dt_month (to_datetime parse_sold (csv_first_policy_sold_month r)))
       (dt_month (to_datetime parse_join (csv_agent_join_month r)))).

Definition derive_row (r : RawRecord) : Result AgentRecord :=
  let m := months_to_first_sale_of r in
  s <- risk_score_of (csv_new_policy_count r) ;;
  Ok (mkAgent (csv_agent_code r) (csv_agent_join_month r)
        (csv_first_policy_sold_month r) (csv_new_policy_count r)
        (csv_unique_proposal r) (csv_net_income r) m s).

Fixpoint derive (rows : list RawRecord) : Result DataFrame :=
  match rows with
  | [] => Ok []
  | r :: rest =>
      a <- derive_row r ;;
      d <- derive rest ;;
      Ok (a :: d)
  end.

End Deriver.

(** ** Summary cards (lines 41-52) *)

(** [len(df)] *)
Definition total_agents (df : DataFrame) : nat := List.length df.

Definition column {A : Type} (f : AgentRecord -> A) (df : DataFrame) : list A :=
  map f df.

(** The exact sum of a column. *)
Definition sum_Z (l : list Z) : Z := fold_right Z.add 0 l.

(** The cast of an int64 value to float64 (nearest, ties to even). *)
Definition float_of_int64 (x : Z) : spec_float :=
  binary_normalize 53 1024 x 0 false.

(** [Series.mean()] on an integer column casts every value to float64,
    adds them up in float64 and divides by the count.  numpy chooses the
    order of the additions (index order for short columns, blocks added
    pairwise for long ones); a [Reduction] records such an order. *)
Inductive Reduction : Type :=
| Term (x : Z)
| Add (l r : Reduction).

Fixpoint terms (t : Reduction) : list Z :=
  match t with
  | Term x => [x]
  | Add l r => terms l ++ terms r
  end.

Fixpoint reduce (t : Reduction) : spec_float :=
  match t with
  | Term x => float_of_int64 x
  | Add l r => SFadd 53 1024 (reduce l) (reduce r)
  end.

(** The order in which a non-empty column is added up. *)
Definition SumOrder : Type := list Z -> Reduction.

(** Whatever the order, every value of the column is added exactly once. *)
Definition sum_contract (order : SumOrder) : Prop :=
  forall col : list Z, col <> [] -> Permutation (terms (order col)) col.

(** Addition in index order, as numpy does for fewer than 8 values. *)
Definition in_index_order : SumOrder :=
  fun col =>
    match col with
    | [] => Term 0
    | x :: t => fold_left (fun acc y => Add acc (Term y)) t (Term x)
    end.

(** [Series.mean()]: NaN ([None]) on an empty column. *)
Definition mean (order : SumOrder) (col : list Z) : option Q :=
  match col with
  | [] => None
  | _ :: _ =>
      Some (float_value
              (SFdiv 53 1024 (reduce (order col))
                 (float_of_int64 (Z.of_nat (List.length col)))))
  end.

Definition avg_new_policies (order : SumOrder) (df : DataFrame) : option Q :=
  mean order (column new_policy_count df).

(** Scan of [argmax]: the running best position changes only on a
    strictly greater value, so the first maximum is kept. *)
Fixpoint argmax_from (best_i : nat) (best : Z) (i : nat) (l : list Z) : nat :=
  match l with
  | [] => best_i
  | x :: t =>
      if best <? x then argmax_from i x (S i) t
      else argmax_from best_i best (S i) t
  end.

(** [Series.idxmax()]: ValueError on an empty column. *)
Definition idxmax (col : list Z) : Result nat :=
  match col with
  | [] => Err ValueError
  | x :: t => Ok (argmax_from 0%nat x 1%nat t)
  end.

(** [df.loc[i, ...]] under the default integer index. *)
Definition loc (df : DataFrame) (i : nat) : Result AgentRecord :=
  match nth_error df i with
  | Some r => Ok r
  | None => Err KeyError
  end.

(** [df.loc[df['new_policy_count'].idxmax(), 'agent_code']] *)
Definition top_performer (df : DataFrame) : Result string :=
  i <- idxmax (column new_policy_count df) ;;
  r <- loc df i ;;
  Ok (agent_code r).

(** ** Figures *)

Inductive Trace : Type :=
| Histogram (x : list Z) (nbins : nat)
| Scatter (x : list Z) (y : list Q) (hover_name : list string)
| Markers (x : list Z) (y : list Q) (size : Z) (color : string) (name : string)
| Bar (x : list string) (y : list Q).

Record VLine : Type := mkVLine {
  vline_x : Z;
  line_dash : string;
  line_color : string
}.

Record Figure : Type := mkFigure {
  fig_title : string;
  fig_data : list Trace;
  fig_vlines : list VLine;
  xaxis_title : option string;
  yaxis_title : option string
}.

(** A figure as [px.histogram], [px.scatter] and [px.bar] return it: one
    trace, and the two axes titled after the plotted columns ("count" for
    the bin heights of a histogram). *)
Definition px_figure (title : string) (t : Trace) (xlabel ylabel : string)
  : Figure :=
  mkFigure title [t] [] (Some xlabel) (Some ylabel).

Definition add_vline (fig : Figure) (v : VLine) : Figure :=
  mkFigure (fig_title fig) (fig_data fig) (fig_vlines fig ++ [v])
    (xaxis_title fig) (yaxis_title fig).

Definition add_trace (fig : Figure) (t : Trace) : Figure :=
  mkFigure (fig_title fig) (fig_data fig ++ [t]) (fig_vlines fig)
    (xaxis_title fig) (yaxis_title fig).

Definition update_layout (fig : Figure) (xt yt : string) : Figure :=
  mkFigure (fig_title fig) (fig_data fig) (fig_vlines fig) (Some xt) (Some yt).

Inductive Component : Type :=
| Li (children : string).

(** ** Sorting *)

(** [DataFrame.sort_values(by, ascending)] with the default
    [kind='quicksort'].  pandas documents that kind as not stable, and
    which routine runs depends on the installed numpy, so the sort is a
    parameter of the callbacks and [sort_contract] is what every kind
    guarantees: the rows are rearranged, and the key column is ordered. *)
Definition SortValues : Type :=
  (AgentRecord -> Q) -> bool -> DataFrame -> DataFrame.

Definition in_order (by_ : AgentRecord -> Q) (ascending : bool)
  (a b : AgentRecord) : Prop :=
  if ascending then (by_ a <= by_ b)%Q else (by_ b <= by_ a)%Q.

Definition sort_contract (sv : SortValues) : Prop :=
  forall by_ ascending df,
    Permutation (sv by_ ascending df) df /\
    StronglySorted (in_order by_ ascending) (sv by_ ascending df).

Definition in_order_b (by_ : AgentRecord -> Q) (ascending : bool)
  (a b : AgentRecord) : bool :=
  if ascending then Qle_bool (by_ a) (by_ b) else Qle_bool (by_ b) (by_ a).

Fixpoint insert_by (le : AgentRecord -> AgentRecord -> bool)
  (a : AgentRecord) (l : DataFrame) : DataFrame :=
  match l with
  | [] => [a]
  | b :: t => if le a b then a :: l else b :: insert_by le a t
  end.

Fixpoint insertion_sort (le : AgentRecord -> AgentRecord -> bool)
  (l : DataFrame) : DataFrame :=
  match l with
  | [] => []
  | a :: t => insert_by le a (insertion_sort le t)
  end.

(** A stable kind: rows with equal keys keep their Dataset order. *)
Definition stable_sort_values : SortValues :=
  fun by_ ascending df => insertion_sort (in_order_b by_ ascending) df.

(** A kind that meets the contract without being stable: sort the other
    way round, then reverse. *)
Definition reversing_sort_values : SortValues :=
  fun by_ ascending df => rev (stable_sort_values by_ (negb ascending) df).

(** What stability means: for every key value, the rows carrying it
    appear in the output in the order they have in the input. *)
Definition keeps_tie_order (by_ : AgentRecord -> Q) (df out : DataFrame) : Prop :=
  forall q : Q,
    filter (fun r => Qeq_bool (by_ r) q) out =
    filter (fun r => Qeq_bool (by_ r) q) df.

(** ** Callbacks (lines 88-135) *)

Definition msg_mentor : string := "🚨 Assign a mentor to boost performance".
Definition msg_proposal : string := "📝 Encourage proposal generation activities".
Definition msg_acceleration : string := "📈 Provide sales acceleration support".
Definition msg_fallback : string :=
  "✅ Agent is performing well. No intervention needed.".

(** Subscript [[0]] of [.values] and of [.iloc]: IndexError when there
    is no first element. *)
Definition item0 {A : Type} (l : list A) : Result A :=
  match l with
  | [] => Err IndexError
  | a :: _ => Ok a
  end.

(** Python's truth value of a list: [not actions]. *)
Definition py_not {A : Type} (l : list A) : bool :=
  match l with
  | [] => true
  | _ :: _ => false
  end.

Section Callbacks.

Variable sort_values : SortValues.

(** The module-level global [df]. *)
Variable df : DataFrame.

(** [df[df['agent_code'] == selected_agent]] *)
Definition selected_rows (selected_agent : string) : DataFrame :=
  filter (fun r => String.eqb (agent_code r) selected_agent) df.

Definition update_policy_distribution (selected_agent : string)
  : Result Figure :=
  let fig :=
    px_figure "New Policy Count Distribution"
      (Histogram (column new_policy_count df) 20)
      "new_policy_count" "count" in
  agent_value <-
    item0 (column new_policy_count (selected_rows selected_agent)) ;;
  let fig := add_vline fig (mkVLine agent_value "dash" "red") in
  Ok fig.

Definition update_income_vs_policy (selected_agent : string)
  : Result Figure :=
  let fig :=
    px_figure "Income vs. New Policies"
      (Scatter (column new_policy_count df) (column net_income df)
         (column agent_code df))
      "new_policy_count" "net_income" in
  let selected := selected_rows selected_agent in
  let fig :=
    add_trace fig
      (Markers (column new_policy_count selected)
         (column net_income selected) 12 "red" "Selected Agent") in
  Ok fig.

(** [df.sort_values('risk_score', ascending=False).head(20)] *)
Definition risk_ranking : DataFrame :=
  firstn 20 (sort_values risk_score false df).

Definition update_risk_chart (selected_agent : string) : Result Figure :=
  let fig :=
    px_figure "Top 20 Agents by Risk Score"
      (Bar (column agent_code risk_ranking)
         (column risk_score risk_ranking))
      "agent_code" "risk_score" in
  let fig := update_layout fig "Agent" "Risk Score (Lower is better)" in
  Ok fig.

(** Lines 123-135, on the selected row. *)
Definition interventions (agent_data : AgentRecord) : list Component :=
  let actions := [] in
  let actions :=
    if new_policy_count agent_data <? 3
    then actions ++ [Li msg_mentor] else actions in
  let actions :=
    if unique_proposal agent_data <? 10
    then actions ++ [Li msg_proposal] else actions in
  let actions :=
    if months_to_first_sale agent_data >? 3
    then actions ++ [Li msg_acceleration] else actions in
  let actions :=
    if py_not actions
    then actions ++ [Li msg_fallback] else actions in
  actions.

Definition update_actions (selected_agent : string)
  : Result (list Component) :=
  agent_data <- item0 (selected_rows selected_agent) ;;
  Ok (interventions agent_data).

End Callbacks.

(** The rule list as the specification words it: three independent
    threshold rules, each contributing its message, in a fixed order. *)
Definition fired_rules (r : AgentRecord) : list Component :=
  (if new_policy_count r <? 3 then [Li msg_mentor] else []) ++
  (if unique_proposal r <? 10 then [Li msg_proposal] else []) ++
  (if months_to_first_sale r >? 3 then [Li msg_acceleration] else []).

(** ** The selector and its four outputs *)

(** What the four callbacks bound to ['agent-selector'] return for one
    selection. *)
Record Outputs : Type := mkOutputs {
  policy_distribution : Result Figure;
  income_vs_policy : Result Figure;
  risk_score_chart : Result Figure;
  action_items : Result (list Component)
}.

Definition recompute (sv : SortValues) (df : DataFrame) (selected_agent : string)
  : Outputs :=
  mkOutputs
    (update_policy_distribution df selected_agent)
    (update_income_vs_policy df selected_agent)
    (update_risk_chart sv df selected_agent)
    (update_actions df selected_agent).

(** ** Objects and module state *)

(** What a callback builds and returns is a Python object that it changes
    in place ([fig.add_vline], [fig.add_trace], [fig.update_layout],
    [actions.append]); [df] is a module-level name.  The memory holds the
    frame bound to [df] and every object created so far; a reference is
    the position of an object in [heap]. *)
Inductive Object : Type :=
| FigureObject (fig : Figure)
| ListObject (items : list Component).

Record Memory : Type := mkMemory {
  global_df : DataFrame;
  heap : list Object
}.

(** A computation on the memory; an exception ends it, what it did to the
    memory before stays done. *)
Definition Run (A : Type) : Type := Memory -> Result A * Memory.

Definition run_ret {A : Type} (a : A) : Run A := fun m => (Ok a, m).

Definition run_bind {A B : Type} (c : Run A) (k : A -> Run B) : Run B :=
  fun m =>
    match c m with
    | (Ok a, m') => k a m'
    | (Err e, m') => (Err e, m')
    end.

Notation "x <~ c ;; k" := (run_bind c (fun x => k))
  (at level 61, c at next level, right associativity).

(** Reading the global name [df]. *)
Definition read_df : Run DataFrame := fun m => (Ok (global_df m), m).

(** A pure expression that may raise. *)
Definition raise_or {A : Type} (r : Result A) : Run A := fun m => (r, m).

(** Creating an object. *)
Definition new_object (o : Object) : Run nat :=
  fun m => (Ok (List.length (heap m)), mkMemory (global_df m) (heap m ++ [o])).

Fixpoint update_nth (n : nat) (f : Object -> Object) (l : list Object)
  : list Object :=
  match l, n with
  | [], _ => []
  | o :: t, O => f o :: t
  | o :: t, S k => o :: update_nth k f t
  end.

(** Changing an object in place. *)
Definition modify (ref : nat) (f : Object -> Object) : Run unit :=
  fun m => (Ok tt, mkMemory (global_df m) (update_nth ref f (heap m))).

Definition read_object (ref : nat) : Run Object :=
  fun m =>
    match nth_error (heap m) ref with
    | Some o => (Ok o, m)
    | None => (Err KeyError, m)
    end.

Definition on_figure (f : Figure -> Figure) (o : Object) : Object :=
  match o with
  | FigureObject fig => FigureObject (f fig)
  | ListObject _ => o
  end.

(** [l.append(x)] *)
Definition append (x : Component) (o : Object) : Object :=
  match o with
  | ListObject items => ListObject (items ++ [x])
  | FigureObject _ => o
  end.

(** [not o] for a list object. *)
Definition object_not (o : Object) : bool :=
  match o with
  | ListObject items => py_not items
  | FigureObject _ => false
  end.

Section StatefulCallbacks.

Variable sort_values : SortValues.

(** Lines 91-95. *)
Definition run_update_policy_distribution (selected_agent : string)
  : Run nat :=
  df <~ read_df ;;
  fig <~ new_object
           (FigureObject
              (px_figure "New Policy Count Distribution"
                 (Histogram (column new_policy_count df) 20)
                 "new_policy_count" "count")) ;;
  agent_value <~
    raise_or (item0 (column new_policy_count (selected_rows df selected_agent))) ;;
  _ <~ modify fig
         (on_figure (fun f => add_vline f (mkVLine agent_value "dash" "red"))) ;;
  run_ret fig.

(** Lines 100-107. *)
Definition run_update_income_vs_policy (selected_agent : string)
  : Run nat :=
  df <~ read_df ;;
  fig <~ new_object
           (FigureObject
              (px_figure "Income vs. New Policies"
                 (Scatter (column new_policy_count df) (column net_income df)
                    (column agent_code df))
                 "new_policy_count" "net_income")) ;;
  let selected := selected_rows df selected_agent in
  _ <~ modify fig
         (on_figure
            (fun f =>
               add_trace f
                 (Markers (column new_policy_count selected)
                    (column net_income selected) 12 "red" "Selected Agent"))) ;;
  run_ret fig.

(** Lines 112-116. *)
Definition run_update_risk_chart (selected_agent : string) : Run nat :=
  df <~ read_df ;;
  let top := firstn 20 (sort_values risk_score false df) in
  fig <~ new_object
           (FigureObject
              (px_figure "Top 20 Agents by Risk Score"
                 (Bar (column agent_code top) (column risk_score top))
                 "agent_code" "risk_score")) ;;
  _ <~ modify fig
         (on_figure
            (fun f => update_layout f "Agent" "Risk Score (Lower is better)")) ;;
  run_ret fig.

(** Lines 121-135. *)
Definition run_update_actions (selected_agent : string) : Run nat :=
  df <~ read_df ;;
  agent_data <~ raise_or (item0 (selected_rows df selected_agent)) ;;
  actions <~ new_object (ListObject []) ;;
  _ <~ (if new_policy_count agent_data <? 3
        then modify actions (append (Li msg_mentor)) else run_ret tt) ;;
  _ <~ (if unique_proposal agent_data <? 10
        then modify actions (append (Li msg_proposal)) else run_ret tt) ;;
  _ <~ (if months_to_first_sale agent_data >? 3
        then modify actions (append (Li msg_acceleration)) else run_ret tt) ;;
  now <~ read_object actions ;;
  _ <~ (if object_not now
        then modify actions (append (Li msg_fallback)) else run_ret tt) ;;
  run_ret actions.

(** What the browser receives from a callback: the returned object as it
    is when the callback returns, or the exception. *)
Definition respond (callback : Run nat) : Run Object :=
  fun m =>
    match callback m with
    | (Ok ref, m') =>
        match nth_error (heap m') ref with
        | Some o => (Ok o, m')
        | None => (Err KeyError, m')
        end
    | (Err e, m') => (Err e, m')
    end.

Record Rendered : Type := mkRendered {
  shown_policy_distribution : Result Object;
  shown_income_vs_policy : Result Object;
  shown_risk_score_chart : Result Object;
  shown_action_items : Result Object
}.

(** A change of the dropdown value fires the four callbacks bound to it,
    one after the other on the same memory. *)
Definition fire (selected_agent : string) (m : Memory) : Rendered * Memory :=
  let (o1, m1) := respond (run_update_policy_distribution selected_agent) m in
  let (o2, m2) := respond (run_update_income_vs_policy selected_agent) m1 in
  let (o3, m3) := respond (run_update_risk_chart selected_agent) m2 in
  let (o4, m4) := respond (run_update_actions selected_agent) m3 in
  (mkRendered o1 o2 o3 o4, m4).

End StatefulCallbacks.

(** The object a pure result stands for. *)
Definition as_figure (r : Result Figure) : Result Object :=
  match r with
  | Ok fig => Ok (FigureObject fig)
  | Err e => Err e
  end.

Definition as_list (r : Result (list Component)) : Result Object :=
  match r with
  | Ok items => Ok (ListObject items)
  | Err e => Err e
  end.

(** [True] when the code occurs in the [agent_code] column. *)
Definition has_agent (df : DataFrame) (code : string) : bool :=
  existsb (fun r => String.eqb (agent_code r) code) df.

(** ** The agent selector (lines 67-72) *)

(** Scan of [Series.unique()]: a value is kept the first time it is met. *)
Fixpoint unique_from (seen : list string) (l : list string) : list string :=
  match l with
  | [] => []
  | x :: t =>
      if existsb (String.eqb x) seen then unique_from seen t
      else x :: unique_from (x :: seen) t
  end.

(** [Series.unique()]: the distinct values, in order of first appearance. *)
Definition unique (l : list string) : list string := unique_from [] l.

(** One entry [{'label': i, 'value': i}] of the dropdown. *)
Record DropdownOption : Type := mkOption {
  opt_label : string;
  opt_value : string
}.

Record Dropdown : Type := mkDropdown {
  dd_options : list DropdownOption;
  dd_value : string
}.

(** [dcc.Dropdown(options=[... for i in df['agent_code'].unique()],
    value=df['agent_code'].iloc[0])] *)
Definition agent_selector (df : DataFrame) : Result Dropdown :=
  let options := map (fun i => mkOption i i) (unique (column agent_code df)) in
  value <- item0 (column agent_code df) ;;
  Ok (mkDropdown options value).

(** The first row carrying a code, in Dataset order. *)
Definition first_row (df : DataFrame) (code : string) : option AgentRecord :=
  find (fun r => String.eqb (agent_code r) code) df.

(** ** A concrete date reader and sample frames *)

Definition digit_value (c : ascii) : option Z :=
  let n := Z.of_nat (nat_of_ascii c) in
  if (48 <=? n) && (n <=? 57) then Some (n - 48) else None.

Definition month_of_number (n : Z) : option Month :=
  match n with
  | 1 => Some Jan | 2 => Some Feb | 3 => Some Mar | 4 => Some Apr
  | 5 => Some May | 6 => Some Jun | 7 => Some Jul | 8 => Some Aug
  | 9 => Some Sep | 10 => Some Oct | 11 => Some Nov | 12 => Some Dec
  | _ => None
  end.

(** Reads the one format [YYYY-MM]; anything else is NaT. *)
Definition parse_year_month (s : string) : option Timestamp :=
  match s with
  | String y1 (String y2 (String y3 (String y4
      (String "-" (String m1 (String m2 EmptyString)))))) =>
      match digit_value y1, digit_value y2, digit_value y3, digit_value y4,
            digit_value m1, digit_value m2 with
      | Some a, Some b, Some c, Some d, Some e, Some f =>
          match month_of_number (10 * e + f) with
          | Some m => Some (mkTimestamp (1000 * a + 100 * b + 10 * c + d) m 1)
          | None => None
          end
      | _, _, _, _, _, _ => None
      end
  | _ => None
  end.

Definition sample_raw : RawRecord :=
  mkRaw "AG001" (Some "2023-11") (Some "2024-02") 4 12 (2500 # 1).

Definition sample_raw_bad_date : RawRecord :=
  mkRaw "AG002" (Some "last spring") (Some "2024-02") 0 3 (0 # 1).

Definition sample_raw_missing_date : RawRecord :=
  mkRaw "AG003" (Some "2023-11") None 12 40 (9000 # 1).

(** The two records of the rule-engine test in the specification. *)
Definition agent_needing_help : AgentRecord :=
  mkAgent "AG010" (Some "2023-01") (Some "2023-06") 2 5 (100 # 1) 5
    (7205759403792794 # 9007199254740992).

Definition agent_doing_well : AgentRecord :=
  mkAgent "AG011" (Some "2023-01") (Some "2023-02") 10 50 (7000 # 1) 1 0.

Definition sample_df : DataFrame :=
  [ agent_needing_help; agent_doing_well;
    mkAgent "AG012" None None 10 8 (6500 # 1) 0 0 ].

(** A memory in which an earlier call left its list of actions behind and
    some figure is still around. *)
Definition sample_memory : Memory :=
  mkMemory sample_df
    [ ListObject [Li msg_mentor];
      FigureObject (mkFigure "old" [] [] None None) ].

(** Twenty-five agents without a single policy: all share risk score 1. *)
Definition idle_agent (code : string) : AgentRecord :=
  mkAgent code None None 0 0 0 0 1.

Definition df25 : DataFrame :=
  map idle_agent
    [ "A01"; "A02"; "A03"; "A04"; "A05"; "A06"; "A07"; "A08"; "A09"; "A10";
      "A11"; "A12"; "A13"; "A14"; "A15"; "A16"; "A17"; "A18"; "A19"; "A20";
      "A21"; "A22"; "A23"; "A24"; "A25" ].

Definition sample_raw_slow : RawRecord :=
  mkRaw "AG004" (Some "2023-01") (Some "2023-06") 2 5 (100 # 1).

Definition sample_rows : list RawRecord :=
  [ sample_raw; sample_raw_bad_date; sample_raw_missing_date ].

(** A frame in which the code AG010 occurs twice. *)
Definition sample_df_dup : DataFrame :=
  sample_df ++
  [ mkAgent "AG010" None None 7 30 (300 # 1) 0
      (5404319552844596 # 18014398509481984) ].

(** Twenty-five agents with policy counts 0, 1, ..., 12, 0, 1, ..., 11,
    each with the risk score line 16 gives that count. *)
Definition counted_agent (code : string) (n : Z) : AgentRecord :=
  mkAgent code None None n 0 0 0 (risk_q n).

Definition df25_mixed : DataFrame :=
  map (fun cn => counted_agent (fst cn) (snd cn))
    [ ("B01", 0); ("B02", 1); ("B03", 2); ("B04", 3); ("B05", 4);
      ("B06", 5); ("B07", 6); ("B08", 7); ("B09", 8); ("B10", 9);
      ("B11", 10); ("B12", 11); ("B13", 12); ("B14", 0); ("B15", 1);
      ("B16", 2); ("B17", 3); ("B18", 4); ("B19", 5); ("B20", 6);
      ("B21", 7); ("B22", 8); ("B23", 9); ("B24", 10); ("B25", 11) ].

(** Three agents, one of them with 2^53 policies, in two orders. *)
Definition df_big_first : DataFrame :=
  [ counted_agent "C1" 9007199254740992; counted_agent "C2" 1;
    counted_agent "C3" 1 ].

Definition df_big_last : DataFrame :=
  [ counted_agent "C2" 1; counted_agent "C3" 1;
    counted_agent "C1" 9007199254740992 ].

(** ** Notions used in the proofs *)

(** A mantissa shifted left by [k] bits. *)
Definition shiftp (m : positive) (k : Z) : positive :=
  match k with
  | Z.pos d => Pos.iter xO m d
  | _ => m
  end.

(** The binary64 number that stands for a positive integer below 2^53:
    the mantissa filled up to 53 bits. *)
Definition canon (c : positive) : spec_float :=
  S754_finite false (shiftp c (53 - Z.pos (digits2_pos c)))
    (Z.pos (digits2_pos c) - 53).

(** The counts whose score is settled by evaluation. *)
Definition small_counts : list Z := map Z.of_nat (seq 0 32).

Definition risk_check (x : Z) : bool :=
  let q := risk_q x in
  Qle_bool (Qabs (q - (1 - Qmin (x # 10) 1))) (1 # 2 ^ 53) &&
  Qle_bool 0 q && Qle_bool q 1 &&
  Bool.eqb (Qeq_bool q 0) (10 <=? x) &&
  Bool.eqb (Qeq_bool q 1) (x =? 0).

Definition mentor_check (x : Z) : bool :=
  Bool.eqb (x <? 3) (negb (Qle_bool (risk_q x) (7 # 10))).

Definition antitone_check (x : Z) : bool :=
  forallb (fun y => if x <=? y then Qle_bool (risk_q y) (risk_q x) else true)
    small_counts.

(* ================================================================= *)
(** * Properties *)

(** ** Metric derivation *)

(** *** Binary64 division of an integer by 10 *)

Lemma digits_lower (p : positive) : 2 ^ (Z.pos (digits2_pos p) - 1) <= Z.pos p.
Proof.
  induction p as [p IH | p IH |]; cbn [digits2_pos].
  - rewrite Pos2Z.inj_succ.
    replace (Z.succ (Z.pos (digits2_pos p)) - 1)
      with (Z.succ (Z.pos (digits2_pos p) - 1)) by lia.
    rewrite Z.pow_succ_r by lia. lia.
  - rewrite Pos2Z.inj_succ.
    replace (Z.succ (Z.pos (digits2_pos p)) - 1)
      with (Z.succ (Z.pos (digits2_pos p) - 1)) by lia.
    rewrite Z.pow_succ_r by lia. lia.
  - cbn. lia.
Qed.

Lemma digits_upper (p : positive) : Z.pos p < 2 ^ Z.pos (digits2_pos p).
Proof.
  induction p as [p IH | p IH |]; cbn [digits2_pos].
  - rewrite Pos2Z.inj_succ, Z.pow_succ_r by lia. lia.
  - rewrite Pos2Z.inj_succ, Z.pow_succ_r by lia. lia.
  - cbn. lia.
Qed.

Lemma shr_1_m (mrs : shr_record) :
  0 <= shr_m mrs -> shr_m (shr_1 mrs) = Z.shiftr (shr_m mrs) 1.
Proof.
  destruct mrs as [m r s]. cbn [shr_m]. intro H.
  destruct m as [| [p | p |] | p]; try reflexivity. lia.
Qed.

Lemma shr_iter_m (k : positive) :
  forall mrs : shr_record,
    0 <= shr_m mrs ->
    shr_m (iter_pos shr_1 k mrs) = Z.shiftr (shr_m mrs) (Z.pos k).
Proof.
  induction k as [k IH | k IH |]; intros mrs H; cbn [iter_pos].
  - assert (H1 : 0 <= shr_m (shr_1 mrs))
      by (rewrite shr_1_m by exact H; apply Z.shiftr_nonneg, H).
    assert (H2 : 0 <= shr_m (iter_pos shr_1 k (shr_1 mrs)))
      by (rewrite IH by exact H1; apply Z.shiftr_nonneg, H1).
    rewrite IH by exact H2. rewrite IH by exact H1. rewrite shr_1_m by exact H.
    rewrite !Z.shiftr_shiftr by lia. f_equal. lia.
  - assert (H1 : 0 <= shr_m (iter_pos shr_1 k mrs))
      by (rewrite IH by exact H; apply Z.shiftr_nonneg, H).
    rewrite IH by exact H1. rewrite IH by exact H.
    rewrite Z.shiftr_shiftr by lia. f_equal. lia.
  - apply shr_1_m, H.
Qed.

Lemma shr_record_of_loc_m (m : Z) (l : location) :
  shr_m (shr_record_of_loc m l) = m.
Proof. destruct l as [| []]; reflexivity. Qed.

(** One rounding shift keeps a positive mantissa positive and never
    lowers the exponent. *)
Lemma shr_fexp_positive (m e : Z) (l : location) :
  0 < m -> -1074 <= e ->
  0 < shr_m (fst (shr_fexp 53 1024 m e l)) /\
  e <= snd (shr_fexp 53 1024 m e l).
Proof.
  intros Hm He. unfold shr_fexp, shr.
  destruct m as [| p | p]; try lia. cbn [Zdigits2].
  set (d := Z.pos (digits2_pos p)).
  assert (Hd : 2 ^ (d - 1) <= Z.pos p) by apply digits_lower.
  assert (Hd1 : 1 <= d) by (unfold d; lia).
  unfold fexp, emin.
  destruct (Z.max (d + e - 53) (3 - 1024 - 53) - e) as [| n | n] eqn:En;
    cbn [fst snd]; rewrite ?shr_record_of_loc_m; try (split; lia).
  split; [| lia].
  rewrite shr_iter_m by (rewrite shr_record_of_loc_m; lia).
  rewrite shr_record_of_loc_m, Z.shiftr_div_pow2 by lia.
  assert (Hn : Z.pos n = d - 53) by lia.
  rewrite Hn.
  assert (Hp : 0 < 2 ^ (d - 53)) by (apply Z.pow_pos_nonneg; lia).
  apply Z.lt_le_trans with (2 ^ 52); [reflexivity |].
  apply Z.div_le_lower_bound; [exact Hp |].
  rewrite <- Z.pow_add_r by lia.
  replace (d - 53 + 52) with (d - 1) by lia. exact Hd.
Qed.

Lemma round_nearest_even_ge (m : Z) (l : location) :
  m <= round_nearest_even m l.
Proof.
  destruct l as [| []]; cbn [round_nearest_even]; try lia.
  destruct (Z.even m); lia.
Qed.

(** Rounding a positive mantissa gives a positive finite number whose
    exponent is at least the one it started from, or overflows. *)
Lemma binary_round_aux_positive (m e : Z) (l : location) :
  0 < m -> -1074 <= e ->
  match binary_round_aux 53 1024 false m e l with
  | S754_finite false _ e' => e <= e'
  | S754_infinity false => True
  | _ => False
  end.
Proof.
  intros Hm He. unfold binary_round_aux.
  destruct (shr_fexp_positive m e l Hm He) as [H1 H2].
  destruct (shr_fexp 53 1024 m e l) as [mrs1 e1]. cbn [fst snd] in H1, H2.
  pose proof (round_nearest_even_ge (shr_m mrs1) (loc_of_shr_record mrs1)) as Hr.
  set (m1 := round_nearest_even (shr_m mrs1) (loc_of_shr_record mrs1)) in *.
  destruct (shr_fexp_positive m1 e1 loc_Exact ltac:(lia) ltac:(lia)) as [H3 H4].
  destruct (shr_fexp 53 1024 m1 e1 loc_Exact) as [mrs2 e2].
  cbn [fst snd] in H3, H4.
  destruct (shr_m mrs2) as [| q | q]; try lia.
  destruct (e2 <=? 1024 - 53); [lia | exact I].
Qed.

(** The quotient of an integer of at least 32 by 10 is above 1. *)
Lemma quotient_above_one (x : Z) :
  32 <= x ->
  SFltb float_one (SFdiv 53 1024 (float_of_int x) (float_of_int 10)) = true.
Proof.
  intro Hx. destruct x as [| p | p]; try lia.
  unfold float_of_int, SFdiv, SFdiv_core_binary.
  cbn [Zdigits2]. change (Z.pos (digits2_pos 10)) with 4.
  set (d := Z.pos (digits2_pos p)).
  assert (Hd : 6 <= d).
  { pose proof (digits_upper p) as Hu. fold d in Hu.
    destruct (Z.le_gt_cases 6 d) as [H | H]; [exact H |].
    assert (2 ^ d <= 2 ^ 5) by (apply Z.pow_le_mono_r; lia).
    change (2 ^ 5) with 32 in *. lia. }
  unfold fexp, emin.
  set (e' := Z.min (Z.max (d + 0 - (4 + 0) - 53) (3 - 1024 - 53)) (0 - 0)).
  assert (He : -51 <= e' <= 0) by (unfold e'; lia).
  set (m' := match 0 - 0 - e' with
             | 0 => Z.pos p
             | Z.pos _ => Z.shiftl (Z.pos p) (0 - 0 - e')
             | Z.neg _ => 0
             end).
  assert (Hm : Z.pos p <= m').
  { unfold m'. destruct (0 - 0 - e') as [| s | s] eqn:Es; try lia.
    rewrite Z.shiftl_mul_pow2 by lia.
    assert (0 < 2 ^ Z.pos s) by (apply Z.pow_pos_nonneg; lia).
    nia. }
  assert (Hq : Z.div_eucl m' 10 = (m' / 10, m' mod 10)).
  { unfold Z.div, Z.modulo. destruct (Z.div_eucl m' 10). reflexivity. }
  rewrite Hq.
  assert (Hq0 : 0 < m' / 10).
  { apply Z.div_str_pos. lia. }
  pose proof (binary_round_aux_positive (m' / 10) e'
                (new_location 10 (m' mod 10)) Hq0 ltac:(lia)) as Hr.
  cbn [xorb].
  destruct (binary_round_aux 53 1024 false (m' / 10) e'
              (new_location 10 (m' mod 10))) as [s | s | | s q e2];
    try contradiction.
  - destruct s; first [contradiction | reflexivity].
  - destruct s; [contradiction |].
    unfold SFltb, SFcompare, float_one.
    destruct (Z.compare_spec (-52) e2); first [reflexivity | lia].
Qed.

(** *** The risk score *)

Lemma risk_score_of_ok (x : Z) : risk_score_of x = Ok (risk_q x).
Proof. reflexivity. Qed.

Lemma risk_q_large (x : Z) : 32 <= x -> risk_q x = 0%Q.
Proof.
  intro Hx. unfold risk_q, py_min.
  rewrite (quotient_above_one x Hx). reflexivity.
Qed.

Lemma small_counts_all (P : Z -> bool) :
  forallb P small_counts = true ->
  forall x, 0 <= x < 32 -> P x = true.
Proof.
  intros H x Hx. rewrite forallb_forall in H. apply H.
  unfold small_counts. apply in_map_iff. exists (Z.to_nat x).
  split; [lia |]. apply in_seq. lia.
Qed.

Lemma risk_check_small : forallb risk_check small_counts = true.
Proof. vm_compute. reflexivity. Qed.

Lemma risk_q_spec (x : Z) :
  0 <= x ->
  (Qabs (risk_q x - (1 - Qmin (x # 10) 1)) <= 1 # 2 ^ 53)%Q /\
  (0 <= risk_q x <= 1)%Q /\
  ((risk_q x == 0)%Q <-> 10 <= x) /\
  ((risk_q x == 1)%Q <-> x = 0).
Proof.
  intro Hx. destruct (Z.lt_ge_cases x 32) as [Hs | Hl].
  - pose proof (small_counts_all risk_check risk_check_small x (conj Hx Hs)) as H.
    unfold risk_check in H.
    repeat (apply andb_prop in H; destruct H as [H ?]).
    repeat match goal with
           | H : Qle_bool _ _ = true |- _ => apply Qle_bool_iff in H
           | H : Bool.eqb _ _ = true |- _ => apply eqb_prop in H
           end.
    repeat split; try assumption.
    + intro E. apply Qeq_bool_iff in E. apply Z.leb_le. congruence.
    + intro E. apply Qeq_bool_iff. apply Z.leb_le in E. congruence.
    + intro E. apply Qeq_bool_iff in E. apply Z.eqb_eq. congruence.
    + intro E. apply Qeq_bool_iff. apply Z.eqb_eq in E. congruence.
  - rewrite (risk_q_large x) by lia.
    assert (Hmin : (Qmin (x # 10) 1 == 1)%Q).
    { apply Q.min_r. unfold Qle; cbn [Qnum Qden]. lia. }
    repeat split; try (intros; lia); try discriminate.
    rewrite Hmin. vm_compute. discriminate.
Qed.


Lemma mentor_check_small : forallb mentor_check small_counts = true.
Proof. vm_compute. reflexivity. Qed.

Lemma risk_q_mentor (x : Z) :
  0 <= x -> (x < 3 <-> (7 # 10 < risk_q x)%Q).
Proof.
  intro Hx. destruct (Z.lt_ge_cases x 32) as [Hs | Hl].
  - pose proof (small_counts_all mentor_check mentor_check_small x (conj Hx Hs)) as H.
    unfold mentor_check in H. apply eqb_prop in H.
    split.
    + intro E. apply Z.ltb_lt in E. rewrite E in H. symmetry in H.
      apply negb_true_iff in H. apply Qnot_le_lt. intro L.
      apply Qle_bool_iff in L. congruence.
    + intro E. apply Z.ltb_lt. rewrite H. apply negb_true_iff.
      destruct (Qle_bool (risk_q x) (7 # 10)) eqn:L; [| reflexivity].
      apply Qle_bool_iff in L. exfalso. exact (Qlt_not_le _ _ E L).
  - rewrite (risk_q_large x) by lia. split; [lia |].
    intro E. exfalso. revert E. vm_compute. discriminate.
Qed.

Lemma antitone_check_small : forallb antitone_check small_counts = true.
Proof. vm_compute. reflexivity. Qed.

Lemma risk_q_antitone (x y : Z) :
  0 <= x -> x <= y -> (risk_q y <= risk_q x)%Q.
Proof.
  intros Hx Hxy. destruct (Z.lt_ge_cases y 32) as [Hs | Hl].
  - pose proof (small_counts_all antitone_check antitone_check_small x
                  ltac:(lia)) as H.
    unfold antitone_check in H.
    pose proof (small_counts_all _ H y ltac:(lia)) as H'. cbv beta in H'.
    assert (E : (x <=? y) = true) by (apply Z.leb_le; lia).
    rewrite E in H'. apply Qle_bool_iff, H'.
  - rewrite (risk_q_large y) by lia.
    apply (risk_q_spec x Hx).
Qed.

(** 1 - 9/10 in binary64 is 0.09999999999999998, not 1/10. *)
Example risk_q_nine : (risk_q 9 == 900719925474099 # 9007199254740992)%Q.
Proof. vm_compute. reflexivity. Qed.

(** C1: the derived risk score of a record with a non-negative policy
    count is produced without any error (also at zero policies); it is
    1 - min(new_policy_count / 10, 1) evaluated in binary64, within 2^-53
    of the exact value of that expression; it lies in [0,1], is 0 exactly
    when new_policy_count >= 10 and is 1 exactly when new_policy_count = 0. *)
Theorem risk_score_derived
  (parse_sold parse_join : string -> option Timestamp) (r : RawRecord)
  (Hnonneg : 0 <= csv_new_policy_count r) :
  exists a : AgentRecord,
    derive_row parse_sold parse_join r = Ok a /\
    risk_score a =
      float_value
        (SFsub 53 1024 float_one
           (py_min
              (SFdiv 53 1024 (float_of_int (csv_new_policy_count r))
                 (float_of_int 10))
              float_one)) /\
    (Qabs (risk_score a - (1 - Qmin (csv_new_policy_count r # 10) 1))
       <= 1 # 2 ^ 53)%Q /\
    (0 <= risk_score a <= 1)%Q /\
    ((risk_score a == 0)%Q <-> 10 <= csv_new_policy_count r) /\
    ((risk_score a == 1)%Q <-> csv_new_policy_count r = 0).
Proof.
  unfold derive_row. rewrite risk_score_of_ok. cbn [bind].
  eexists. split; [reflexivity |]. cbn [risk_score].
  split; [reflexivity |].
  exact (risk_q_spec (csv_new_policy_count r) Hnonneg).
Qed.

Lemma risk_score_derived_witness :
  exists a : AgentRecord,
    derive_row parse_year_month parse_year_month sample_raw = Ok a /\
    risk_score a =
      float_value
        (SFsub 53 1024 float_one
           (py_min
              (SFdiv 53 1024 (float_of_int (csv_new_policy_count sample_raw))
                 (float_of_int 10))
              float_one)) /\
    (Qabs (risk_score a - (1 - Qmin (csv_new_policy_count sample_raw # 10) 1))
       <= 1 # 2 ^ 53)%Q /\
    (0 <= risk_score a <= 1)%Q /\
    ((risk_score a == 0)%Q <-> 10 <= csv_new_policy_count sample_raw) /\
    ((risk_score a == 1)%Q <-> csv_new_policy_count sample_raw = 0).
Proof.
  apply (risk_score_derived parse_year_month parse_year_month sample_raw).
  cbn. lia.
Defined.

Lemma derive_row_ok
  (parse_sold parse_join : string -> option Timestamp) (r : RawRecord) :
  exists a : AgentRecord,
    derive_row parse_sold parse_join r = Ok a /\
    months_to_first_sale a = months_to_first_sale_of parse_sold parse_join r /\
    new_policy_count a = csv_new_policy_count r /\
    agent_code a = csv_agent_code r.
Proof.
  unfold derive_row. rewrite risk_score_of_ok. cbn [bind].
  eexists. split; [reflexivity |]. repeat split.
Qed.

Lemma derive_total
  (parse_sold parse_join : string -> option Timestamp) (rows : list RawRecord) :
  exists df : DataFrame,
    derive parse_sold parse_join rows = Ok df /\
    List.length df = List.length rows.
Proof.
  induction rows as [| r rest IH].
  - exists []. split; reflexivity.
  - destruct IH as (d & Hd & Hl).
    destruct (derive_row_ok parse_sold parse_join r) as (a & Ha & _).
    exists (a :: d). cbn [derive]. rewrite Ha, Hd. cbn [bind].
    split; [reflexivity |]. cbn [List.length]. now rewrite Hl.
Qed.

Lemma month_number_range (m : Month) : 1 <= month_number m <= 12.
Proof. destruct m; cbn [month_number]; lia. Qed.

(** C2: months_to_first_sale is the month number of the text read from the
    first-sale cell minus the month number of the text read from the join
    cell (years play no part, so it may be negative), and it is 0 as soon
    as one of the two cells is empty or holds a text that cannot be read
    as a date. *)
Theorem months_to_first_sale_derived
  (parse_sold parse_join : string -> option Timestamp) (r : RawRecord) :
  exists a : AgentRecord,
    derive_row parse_sold parse_join r = Ok a /\
    (csv_first_policy_sold_month r = None -> months_to_first_sale a = 0) /\
    (csv_agent_join_month r = None -> months_to_first_sale a = 0) /\
    (forall s : string,
       csv_first_policy_sold_month r = Some s -> parse_sold s = None ->
       months_to_first_sale a = 0) /\
    (forall j : string,
       csv_agent_join_month r = Some j -> parse_join j = None ->
       months_to_first_sale a = 0) /\
    (forall (s j : string) (sold joined : Timestamp),
       csv_first_policy_sold_month r = Some s ->
       csv_agent_join_month r = Some j ->
       parse_sold s = Some sold -> parse_join j = Some joined ->
       months_to_first_sale a =
       month_number (ts_month sold) - month_number (ts_month joined)).
Proof.
  destruct (derive_row_ok parse_sold parse_join r) as (a & Ha & Hm & _).
  exists a. split; [exact Ha |]. rewrite Hm.
  unfold months_to_first_sale_of, to_datetime.
  repeat split.
  - intros ->. reflexivity.
  - intros ->.
    destruct (csv_first_policy_sold_month r) as [s |]; [| reflexivity].
    destruct (parse_sold s); reflexivity.
  - intros s -> ->. reflexivity.
  - intros j -> ->.
    destruct (csv_first_policy_sold_month r) as [s |]; [| reflexivity].
    destruct (parse_sold s); reflexivity.
  - intros s j sold joined -> -> -> ->. reflexivity.
Qed.

(** Joined in November 2023 and first sale in February 2024 give -9; an
    unreadable join date and an empty first-sale cell give 0. *)
Lemma months_to_first_sale_derived_witness :
  (exists a : AgentRecord,
     derive_row parse_year_month parse_year_month sample_raw = Ok a /\
     months_to_first_sale a = -9) /\
  (exists a : AgentRecord,
     derive_row parse_year_month parse_year_month sample_raw_bad_date = Ok a /\
     months_to_first_sale a = 0) /\
  (exists a : AgentRecord,
     derive_row parse_year_month parse_year_month sample_raw_missing_date
       = Ok a /\
     months_to_first_sale a = 0).
Proof.
  split; [| split].
  - destruct (months_to_first_sale_derived parse_year_month parse_year_month
                sample_raw) as (a & Ha & _ & _ & _ & _ & H).
    exists a. split; [exact Ha |].
    exact (H "2024-02" "2023-11" (mkTimestamp 2024 Feb 1)
             (mkTimestamp 2023 Nov 1) eq_refl eq_refl eq_refl eq_refl).
  - destruct (months_to_first_sale_derived parse_year_month parse_year_month
                sample_raw_bad_date) as (a & Ha & _ & _ & _ & H & _).
    exists a. split; [exact Ha |].
    exact (H "last spring" eq_refl eq_refl).
  - destruct (months_to_first_sale_derived parse_year_month parse_year_month
                sample_raw_missing_date) as (a & Ha & H & _).
    exists a. split; [exact Ha |].
    exact (H eq_refl).
Defined.

(** Joined in November, first sale in February: the difference is -9. *)
Example months_to_first_sale_negative :
  months_to_first_sale_of parse_year_month parse_year_month sample_raw = -9.
Proof. reflexivity. Qed.

Example months_to_first_sale_bad_date :
  months_to_first_sale_of parse_year_month parse_year_month
    sample_raw_bad_date = 0.
Proof. reflexivity. Qed.

Example months_to_first_sale_missing_date :
  months_to_first_sale_of parse_year_month parse_year_month
    sample_raw_missing_date = 0.
Proof. reflexivity. Qed.

(** C10: when both dates parse, months_to_first_sale lies in [-11, 11]. *)
Theorem months_to_first_sale_range
  (parse_sold parse_join : string -> option Timestamp) (r : RawRecord)
  (sold joined : Timestamp)
  (Hsold : to_datetime parse_sold (csv_first_policy_sold_month r) = Some sold)
  (Hjoin : to_datetime parse_join (csv_agent_join_month r) = Some joined) :
  exists a : AgentRecord,
    derive_row parse_sold parse_join r = Ok a /\
    -11 <= months_to_first_sale a <= 11.
Proof.
  destruct (derive_row_ok parse_sold parse_join r) as (a & Ha & Hm & _).
  exists a. split; [exact Ha |]. rewrite Hm.
  unfold months_to_first_sale_of. rewrite Hsold, Hjoin.
  cbn [dt_month nan_sub fillna].
  pose proof (month_number_range (ts_month sold)).
  pose proof (month_number_range (ts_month joined)).
  lia.
Qed.

Lemma months_to_first_sale_range_witness :
  exists a : AgentRecord,
    derive_row parse_year_month parse_year_month sample_raw = Ok a /\
    -11 <= months_to_first_sale a <= 11.
Proof.
  apply (months_to_first_sale_range parse_year_month parse_year_month
           sample_raw (mkTimestamp 2024 Feb 1) (mkTimestamp 2023 Nov 1));
    reflexivity.
Defined.

(** ** Intervention rules *)

Lemma fallback_not_a_rule (r : AgentRecord) :
  ~ In (Li msg_fallback) (fired_rules r).
Proof.
  unfold fired_rules.
  destruct (new_policy_count r <? 3), (unique_proposal r <? 10),
    (months_to_first_sale r >? 3); cbn; intuition discriminate.
Qed.

Lemma interventions_unfold (r : AgentRecord) :
  interventions r =
  match fired_rules r with
  | [] => [Li msg_fallback]
  | _ :: _ => fired_rules r
  end.
Proof.
  unfold interventions, fired_rules.
  destruct (new_policy_count r <? 3), (unique_proposal r <? 10),
    (months_to_first_sale r >? 3); reflexivity.
Qed.

(** C3: the three threshold rules are all evaluated, in the fixed order
    mentor, proposal, sales acceleration, each firing rule adding its
    message; the fallback message is present exactly when no rule fires
    (and is then the whole list); new_policy_count=2, unique_proposal=5,
    months_to_first_sale=5 gives the three messages in order, and
    new_policy_count=10, unique_proposal=50, months_to_first_sale=1 gives
    the single fallback message. *)
Theorem rule_engine (df : DataFrame) (selected_agent : string)
  (r : AgentRecord) (rest : DataFrame) :
  (selected_rows df selected_agent = r :: rest ->
     update_actions df selected_agent = Ok (interventions r)) /\
  interventions r =
    match fired_rules r with
    | [] => [Li msg_fallback]
    | _ :: _ => fired_rules r
    end /\
  (In (Li msg_fallback) (interventions r) <->
     ~ new_policy_count r < 3 /\ ~ unique_proposal r < 10 /\
     ~ months_to_first_sale r > 3) /\
  (In (Li msg_fallback) (interventions r) <-> fired_rules r = []) /\
  (new_policy_count r = 2 -> unique_proposal r = 5 ->
   months_to_first_sale r = 5 ->
     interventions r = [Li msg_mentor; Li msg_proposal; Li msg_acceleration]) /\
  (new_policy_count r = 10 -> unique_proposal r = 50 ->
   months_to_first_sale r = 1 ->
     interventions r = [Li msg_fallback]).
Proof.
  split.
  { intro Hsel. unfold update_actions. rewrite Hsel. reflexivity. }
  split; [apply interventions_unfold |].
  assert (Hiff : In (Li msg_fallback) (interventions r) <-> fired_rules r = []).
  { rewrite interventions_unfold.
    pose proof (fallback_not_a_rule r) as Hn.
    destruct (fired_rules r) as [| c l] eqn:E.
    - split; [reflexivity | intros _; left; reflexivity].
    - split; [intro Hin; contradiction | discriminate]. }
  split.
  { rewrite Hiff. unfold fired_rules.
    destruct (Z.ltb_spec (new_policy_count r) 3),
      (Z.ltb_spec (unique_proposal r) 10),
      (Z.gtb_spec (months_to_first_sale r) 3);
      cbn; split; intros; try discriminate; try lia; reflexivity. }
  split; [exact Hiff |].
  split; intros H1 H2 H3; unfold interventions;
    rewrite H1, H2, H3; reflexivity.
Qed.

Example rule_engine_three_messages :
  update_actions sample_df "AG010" =
  Ok [Li msg_mentor; Li msg_proposal; Li msg_acceleration].
Proof. reflexivity. Qed.

Example rule_engine_fallback :
  update_actions sample_df "AG011" = Ok [Li msg_fallback].
Proof. reflexivity. Qed.

(** ** An agent code that is not in the frame *)

Lemma selected_rows_absent (df : DataFrame) (code : string) :
  has_agent df code = false -> selected_rows df code = [].
Proof.
  unfold has_agent, selected_rows.
  induction df as [| r t IH]; cbn [existsb filter]; [reflexivity |].
  intro H. apply orb_false_iff in H as [Hr Ht].
  rewrite Hr. apply IH, Ht.
Qed.

Lemma never_selection_not_found
  (sv : SortValues) (df : DataFrame) (code : string) :
  update_policy_distribution df code <> Err SelectionNotFound /\
  update_income_vs_policy df code <> Err SelectionNotFound /\
  update_risk_chart sv df code <> Err SelectionNotFound /\
  update_actions df code <> Err SelectionNotFound.
Proof.
  unfold update_policy_distribution, update_actions.
  repeat split; try discriminate.
  - destruct (column new_policy_count (selected_rows df code)); discriminate.
  - destruct (selected_rows df code); discriminate.
Qed.

(** C4, as stated, fails: for the code "AG999", which is not in the
    frame, no callback ends in SelectionNotFound. *)
Lemma absent_selection_counterexample :
  ~ (forall (sv : SortValues) (df : DataFrame) (code : string),
       has_agent df code = false ->
       update_policy_distribution df code = Err SelectionNotFound /\
       update_income_vs_policy df code = Err SelectionNotFound /\
       update_risk_chart sv df code = Err SelectionNotFound /\
       update_actions df code = Err SelectionNotFound).
Proof.
  intro H.
  destruct (H stable_sort_values sample_df "AG999" eq_refl) as (H1 & _).
  discriminate H1.
Qed.

(** C4, amended: for an agent code that is not in the frame, the policy
    histogram and the rule engine stop with IndexError, the income
    scatter is returned with an empty highlighted series, and the risk
    chart is returned as for any other selection. *)
Theorem absent_selection
  (sv : SortValues) (df : DataFrame) (code : string)
  (Habsent : has_agent df code = false) :
  update_policy_distribution df code = Err IndexError /\
  update_actions df code = Err IndexError /\
  update_income_vs_policy df code =
    Ok (mkFigure "Income vs. New Policies"
          [ Scatter (column new_policy_count df) (column net_income df)
              (column agent_code df);
            Markers [] [] 12 "red" "Selected Agent" ]
          [] (Some "new_policy_count") (Some "net_income")) /\
  update_risk_chart sv df code =
    Ok (mkFigure "Top 20 Agents by Risk Score"
          [ Bar (column agent_code (risk_ranking sv df))
              (column risk_score (risk_ranking sv df)) ]
          [] (Some "Agent") (Some "Risk Score (Lower is better)")).
Proof.
  unfold update_policy_distribution, update_actions, update_income_vs_policy.
  rewrite (selected_rows_absent df code Habsent).
  repeat split; reflexivity.
Qed.

Lemma absent_selection_witness :
  update_policy_distribution sample_df "AG999" = Err IndexError /\
  update_actions sample_df "AG999" = Err IndexError /\
  update_income_vs_policy sample_df "AG999" =
    Ok (mkFigure "Income vs. New Policies"
          [ Scatter (column new_policy_count sample_df)
              (column net_income sample_df) (column agent_code sample_df);
            Markers [] [] 12 "red" "Selected Agent" ]
          [] (Some "new_policy_count") (Some "net_income")) /\
  update_risk_chart stable_sort_values sample_df "AG999" =
    Ok (mkFigure "Top 20 Agents by Risk Score"
          [ Bar (column agent_code (risk_ranking stable_sort_values sample_df))
              (column risk_score (risk_ranking stable_sort_values sample_df)) ]
          [] (Some "Agent") (Some "Risk Score (Lower is better)")).
Proof.
  apply (absent_selection stable_sort_values sample_df "AG999").
  reflexivity.
Defined.

(** ** Sorting kinds *)

Lemma in_order_b_true (by_ : AgentRecord -> Q) (asc : bool) (a b : AgentRecord) :
  in_order_b by_ asc a b = true <-> in_order by_ asc a b.
Proof.
  unfold in_order_b, in_order. destruct asc; apply Qle_bool_iff.
Qed.

Lemma in_order_b_false (by_ : AgentRecord -> Q) (asc : bool) (a b : AgentRecord) :
  in_order_b by_ asc a b = false -> in_order by_ asc b a.
Proof.
  intro H. unfold in_order_b, in_order in *.
  destruct asc.
  - destruct (Qlt_le_dec (by_ b) (by_ a)) as [L | L].
    + apply Qlt_le_weak, L.
    + apply Qle_bool_iff in L. congruence.
  - destruct (Qlt_le_dec (by_ a) (by_ b)) as [L | L].
    + apply Qlt_le_weak, L.
    + apply Qle_bool_iff in L. congruence.
Qed.

Lemma in_order_trans (by_ : AgentRecord -> Q) (asc : bool) (a b c : AgentRecord) :
  in_order by_ asc a b -> in_order by_ asc b c -> in_order by_ asc a c.
Proof.
  unfold in_order. destruct asc; intros H1 H2.
  - exact (Qle_trans _ _ _ H1 H2).
  - exact (Qle_trans _ _ _ H2 H1).
Qed.

Lemma in_order_negb (by_ : AgentRecord -> Q) (asc : bool) (a b : AgentRecord) :
  in_order by_ (negb asc) a b <-> in_order by_ asc b a.
Proof. unfold in_order. destruct asc; reflexivity. Qed.

Lemma insert_by_perm (le : AgentRecord -> AgentRecord -> bool)
  (a : AgentRecord) (l : DataFrame) :
  Permutation (insert_by le a l) (a :: l).
Proof.
  induction l as [| b t IH]; cbn [insert_by]; [reflexivity |].
  destruct (le a b); [reflexivity |].
  rewrite IH. apply perm_swap.
Qed.

Lemma insertion_sort_perm (le : AgentRecord -> AgentRecord -> bool)
  (l : DataFrame) :
  Permutation (insertion_sort le l) l.
Proof.
  induction l as [| a t IH]; cbn [insertion_sort]; [reflexivity |].
  rewrite insert_by_perm. now apply perm_skip.
Qed.

Lemma insert_by_sorted (by_ : AgentRecord -> Q) (asc : bool)
  (a : AgentRecord) (l : DataFrame) :
  StronglySorted (in_order by_ asc) l ->
  StronglySorted (in_order by_ asc) (insert_by (in_order_b by_ asc) a l).
Proof.
  induction 1 as [| b t Hs IH Hb]; cbn [insert_by].
  - constructor; constructor.
  - destruct (in_order_b by_ asc a b) eqn:E.
    + apply in_order_b_true in E.
      constructor; [constructor; assumption |].
      constructor; [exact E |].
      eapply Forall_impl; [| exact Hb].
      intros c Hc. eapply in_order_trans; eassumption.
    + apply in_order_b_false in E.
      constructor; [exact IH |].
      eapply Permutation_Forall; [symmetry; apply insert_by_perm |].
      constructor; assumption.
Qed.

Lemma insertion_sort_sorted (by_ : AgentRecord -> Q) (asc : bool) (l : DataFrame) :
  StronglySorted (in_order by_ asc) (insertion_sort (in_order_b by_ asc) l).
Proof.
  induction l as [| a t IH]; cbn [insertion_sort].
  - constructor.
  - apply insert_by_sorted, IH.
Qed.

Lemma stable_sort_values_contract : sort_contract stable_sort_values.
Proof.
  intros by_ asc df. split.
  - apply insertion_sort_perm.
  - apply insertion_sort_sorted.
Qed.

Lemma sorted_snoc (R : AgentRecord -> AgentRecord -> Prop)
  (l : DataFrame) (a : AgentRecord) :
  StronglySorted R l -> Forall (fun b => R b a) l ->
  StronglySorted R (l ++ [a]).
Proof.
  induction 1 as [| b t Hs IH Hb]; intro Hall; cbn [app].
  - constructor; constructor.
  - inversion Hall as [| ? ? Hba Ht]; subst.
    constructor; [apply IH, Ht |].
    apply Forall_app. split; [exact Hb |].
    constructor; [exact Hba | constructor].
Qed.

Lemma sorted_rev (by_ : AgentRecord -> Q) (asc : bool) (l : DataFrame) :
  StronglySorted (in_order by_ (negb asc)) l ->
  StronglySorted (in_order by_ asc) (rev l).
Proof.
  induction 1 as [| b t Hs IH Hb]; cbn [rev].
  - constructor.
  - apply sorted_snoc; [exact IH |].
    apply Forall_rev.
    eapply Forall_impl; [| exact Hb].
    intros c Hc. apply in_order_negb, Hc.
Qed.

Lemma reversing_sort_values_contract : sort_contract reversing_sort_values.
Proof.
  intros by_ asc df. unfold reversing_sort_values, stable_sort_values. split.
  - rewrite <- Permutation_rev. apply insertion_sort_perm.
  - apply sorted_rev, insertion_sort_sorted.
Qed.

(** The insertion sort keeps rows of equal key in their input order. *)
Lemma insert_by_keeps_ties (by_ : AgentRecord -> Q) (asc : bool)
  (a : AgentRecord) (l : DataFrame) (q : Q) :
  filter (fun r => Qeq_bool (by_ r) q) (insert_by (in_order_b by_ asc) a l) =
  filter (fun r => Qeq_bool (by_ r) q) (a :: l).
Proof.
  induction l as [| b t IH]; cbn [insert_by]; [reflexivity |].
  destruct (in_order_b by_ asc a b) eqn:E; [reflexivity |].
  cbn [filter] in *. rewrite IH.
  destruct (Qeq_bool (by_ a) q) eqn:Ea; [| reflexivity].
  destruct (Qeq_bool (by_ b) q) eqn:Eb; [| reflexivity].
  exfalso.
  apply Qeq_bool_iff in Ea, Eb.
  assert (Hab : (by_ a == by_ b)%Q) by (rewrite Ea, Eb; reflexivity).
  assert (T : in_order_b by_ asc a b = true).
  { apply in_order_b_true. unfold in_order.
    destruct asc; rewrite Hab; apply Qle_refl. }
  congruence.
Qed.

Lemma stable_sort_values_keeps_ties
  (by_ : AgentRecord -> Q) (asc : bool) (df : DataFrame) :
  keeps_tie_order by_ df (stable_sort_values by_ asc df).
Proof.
  intro q. unfold stable_sort_values.
  induction df as [| a t IH]; cbn [insertion_sort]; [reflexivity |].
  rewrite insert_by_keeps_ties. cbn [filter]. rewrite IH. reflexivity.
Qed.

(** ** Risk ranking *)

Lemma in_head (k : nat) (l : DataFrame) (a : AgentRecord) :
  In a (firstn k l) -> In a l.
Proof.
  intro H. rewrite <- (firstn_skipn k l). apply in_or_app. now left.
Qed.

Lemma in_tail (k : nat) (l : DataFrame) (a : AgentRecord) :
  In a (skipn k l) -> In a l.
Proof.
  intro H. rewrite <- (firstn_skipn k l). apply in_or_app. now right.
Qed.

Lemma sorted_firstn (R : AgentRecord -> AgentRecord -> Prop)
  (k : nat) (l : DataFrame) :
  StronglySorted R l -> StronglySorted R (firstn k l).
Proof.
  intro H. revert k.
  induction H as [| b t Hs IH Hb]; intros [| k]; cbn [firstn];
    try constructor.
  - apply IH.
  - rewrite Forall_forall in *. intros c Hc.
    apply Hb. eapply in_head; exact Hc.
Qed.

Lemma sorted_head_tail (R : AgentRecord -> AgentRecord -> Prop)
  (k : nat) (l : DataFrame) :
  StronglySorted R l ->
  forall a b, In a (firstn k l) -> In b (skipn k l) -> R a b.
Proof.
  intro H. revert k.
  induction H as [| c t Hs IH Hc]; intros [| k] a b Ha Hb;
    cbn [firstn skipn] in *; try contradiction.
  destruct Ha as [-> | Ha].
  - rewrite Forall_forall in Hc. apply Hc.
    eapply in_tail; exact Hb.
  - eapply IH; eassumption.
Qed.

Lemma risk_ranking_length (sv : SortValues) (df : DataFrame) :
  sort_contract sv -> (20 < List.length df)%nat ->
  List.length (risk_ranking sv df) = 20%nat.
Proof.
  intros Hsv Hlen. unfold risk_ranking.
  destruct (Hsv risk_score false df) as [Hp _].
  rewrite length_firstn, (Permutation_length Hp). lia.
Qed.

(** The sorting contract leaves the order of equal scores open: on the
    twenty-five idle agents one kind shows A01..A20, another A25..A06. *)
Example ranking_df25_stable :
  column agent_code (risk_ranking stable_sort_values df25) =
  [ "A01"; "A02"; "A03"; "A04"; "A05"; "A06"; "A07"; "A08"; "A09"; "A10";
    "A11"; "A12"; "A13"; "A14"; "A15"; "A16"; "A17"; "A18"; "A19"; "A20" ].
Proof. vm_compute. reflexivity. Qed.

Example ranking_df25_reversing :
  column agent_code (risk_ranking reversing_sort_values df25) =
  [ "A25"; "A24"; "A23"; "A22"; "A21"; "A20"; "A19"; "A18"; "A17"; "A16";
    "A15"; "A14"; "A13"; "A12"; "A11"; "A10"; "A09"; "A08"; "A07"; "A06" ].
Proof. vm_compute. reflexivity. Qed.

(** X16: with more than 20 records the risk chart shows exactly 20 of
    them, in descending order of risk score, and no record left out has a
    higher risk score than a record shown. *)
Theorem risk_ranking_top20
  (sv : SortValues) (Hsv : sort_contract sv)
  (df : DataFrame) (Hlen : (20 < List.length df)%nat)
  (selected_agent : string) :
  update_risk_chart sv df selected_agent =
    Ok (mkFigure "Top 20 Agents by Risk Score"
          [ Bar (column agent_code (risk_ranking sv df))
              (column risk_score (risk_ranking sv df)) ]
          [] (Some "Agent") (Some "Risk Score (Lower is better)")) /\
  List.length (risk_ranking sv df) = 20%nat /\
  StronglySorted (fun a b => (risk_score b <= risk_score a)%Q)
    (risk_ranking sv df) /\
  exists rest : DataFrame,
    Permutation (risk_ranking sv df ++ rest) df /\
    forall a b, In a (risk_ranking sv df) -> In b rest ->
      (risk_score b <= risk_score a)%Q.
Proof.
  split; [reflexivity |].
  split; [apply risk_ranking_length; assumption |].
  destruct (Hsv risk_score false df) as [Hp Hs].
  split.
  - apply (sorted_firstn (in_order risk_score false)), Hs.
  - exists (skipn 20 (sv risk_score false df)). split.
    + unfold risk_ranking. rewrite firstn_skipn. exact Hp.
    + intros a b Ha Hb.
      exact (sorted_head_tail (in_order risk_score false) 20 _ Hs a b Ha Hb).
Qed.

Lemma risk_ranking_top20_witness :
  List.length (risk_ranking stable_sort_values df25_mixed) = 20%nat /\
  StronglySorted (fun a b => (risk_score b <= risk_score a)%Q)
    (risk_ranking stable_sort_values df25_mixed) /\
  exists rest : DataFrame,
    Permutation (risk_ranking stable_sort_values df25_mixed ++ rest)
      df25_mixed /\
    forall a b, In a (risk_ranking stable_sort_values df25_mixed) ->
      In b rest -> (risk_score b <= risk_score a)%Q.
Proof.
  assert (Hlen : (20 < List.length df25_mixed)%nat) by (cbn; lia).
  destruct (risk_ranking_top20 stable_sort_values
              stable_sort_values_contract df25_mixed Hlen "B03")
    as (_ & H).
  exact H.
Defined.

(** The twenty agents shown for the mixed frame: those with at most 9
    policies, the two with none first. *)
Example ranking_df25_mixed :
  column new_policy_count (risk_ranking stable_sort_values df25_mixed) =
  [ 0; 0; 1; 1; 2; 2; 3; 3; 4; 4; 5; 5; 6; 6; 7; 7; 8; 8; 9; 9 ].
Proof. vm_compute. reflexivity. Qed.

(** C6: the risk chart is the same for any two selections. *)
Theorem risk_chart_ignores_selection
  (sv : SortValues) (df : DataFrame) (s1 s2 : string) :
  update_risk_chart sv df s1 = update_risk_chart sv df s2.
Proof. reflexivity. Qed.

(** ** Summary cards *)

Lemma skipn_cons_inv (i : nat) (col : list Z) (x : Z) (t : list Z) :
  skipn i col = x :: t ->
  nth_error col i = Some x /\ skipn (S i) col = t.
Proof.
  revert col. induction i as [| i IH]; intros [| c col] H;
    cbn [skipn] in H; try discriminate.
  - inversion H; subst. split; reflexivity.
  - apply IH in H. exact H.
Qed.

(** Invariant of the scan: [best] sits at [best_i], nothing before
    position [i] exceeds it, and everything before [best_i] is strictly
    smaller. *)
Lemma argmax_from_spec (col : list Z) :
  forall (l : list Z) (best_i : nat) (best : Z) (i : nat),
    skipn i col = l ->
    nth_error col best_i = Some best ->
    (forall j x, (j < i)%nat -> nth_error col j = Some x -> x <= best) ->
    (forall j x, (j < best_i)%nat -> nth_error col j = Some x -> x < best) ->
    exists m : Z,
      nth_error col (argmax_from best_i best i l) = Some m /\
      (forall j x, nth_error col j = Some x -> x <= m) /\
      (forall j x, (j < argmax_from best_i best i l)%nat ->
                   nth_error col j = Some x -> x < m).
Proof.
  induction l as [| x t IH]; intros best_i best i Hskip Hbest Hle Hlt;
    cbn [argmax_from].
  - exists best. split; [exact Hbest |]. split; [| exact Hlt].
    intros j y Hj. apply (Hle j y); [| exact Hj].
    apply skipn_all_iff in Hskip.
    assert (j < List.length col)%nat by (apply nth_error_Some; congruence).
    lia.
  - apply skipn_cons_inv in Hskip as [Hx Hskip].
    destruct (Z.ltb_spec best x) as [Hbx | Hbx].
    + apply IH; [exact Hskip | exact Hx | |].
      * intros j y Hj Hy.
        destruct (Nat.eq_dec j i) as [-> | Hne].
        -- rewrite Hx in Hy. inversion Hy. lia.
        -- assert (y <= best) by (apply (Hle j y); [lia | exact Hy]). lia.
      * intros j y Hj Hy.
        assert (y <= best) by (apply (Hle j y); [lia | exact Hy]). lia.
    + apply IH; [exact Hskip | exact Hbest | | exact Hlt].
      intros j y Hj Hy.
      destruct (Nat.eq_dec j i) as [-> | Hne].
      * rewrite Hx in Hy. inversion Hy. lia.
      * apply (Hle j y); [lia | exact Hy].
Qed.

Lemma idxmax_spec (x : Z) (t : list Z) :
  exists (k : nat) (m : Z),
    idxmax (x :: t) = Ok k /\
    nth_error (x :: t) k = Some m /\
    (forall j y, nth_error (x :: t) j = Some y -> y <= m) /\
    (forall j y, (j < k)%nat -> nth_error (x :: t) j = Some y -> y < m).
Proof.
  destruct (argmax_from_spec (x :: t) t 0%nat x 1%nat) as (m & H1 & H2 & H3).
  - reflexivity.
  - reflexivity.
  - intros j y Hj Hy. assert (j = 0%nat) by lia. subst j.
    cbn in Hy. inversion Hy. lia.
  - intros j y Hj. lia.
  - exists (argmax_from 0%nat x 1%nat t), m.
    split; [reflexivity |]. auto.
Qed.

(** C7: on a non-empty frame the top performer is the agent code of a
    row whose new_policy_count is the maximum of the column, and every
    row before it has a strictly smaller count (first maximum wins). *)
Theorem top_performer_first_max (df : DataFrame) (Hne : df <> []) :
  exists (i : nat) (r : AgentRecord),
    top_performer df = Ok (agent_code r) /\
    nth_error df i = Some r /\
    (forall r', In r' df -> new_policy_count r' <= new_policy_count r) /\
    (forall j r', (j < i)%nat -> nth_error df j = Some r' ->
                  new_policy_count r' < new_policy_count r).
Proof.
  destruct df as [| r0 t]; [contradiction |].
  destruct (idxmax_spec (new_policy_count r0) (column new_policy_count t))
    as (k & m & Hk & Hm & Hmax & Hfirst).
  change (new_policy_count r0 :: column new_policy_count t)
    with (column new_policy_count (r0 :: t)) in *.
  unfold column in Hm. rewrite nth_error_map in Hm.
  destruct (nth_error (r0 :: t) k) as [r |] eqn:Hr; [| discriminate].
  cbn [option_map] in Hm. inversion Hm as [Hmr].
  exists k, r. split.
  { unfold top_performer. rewrite Hk. cbn [bind]. unfold loc.
    rewrite Hr. reflexivity. }
  split; [exact Hr |]. rewrite Hmr. split.
  - intros r' Hin. apply In_nth_error in Hin as [j Hj].
    apply (Hmax j). unfold column. rewrite nth_error_map, Hj. reflexivity.
  - intros j r' Hlt Hj.
    apply (Hfirst j); [exact Hlt |].
    unfold column. rewrite nth_error_map, Hj. reflexivity.
Qed.

Lemma top_performer_first_max_witness :
  exists (i : nat) (r : AgentRecord),
    top_performer sample_df = Ok (agent_code r) /\
    nth_error sample_df i = Some r /\
    (forall r', In r' sample_df -> new_policy_count r' <= new_policy_count r) /\
    (forall j r', (j < i)%nat -> nth_error sample_df j = Some r' ->
                  new_policy_count r' < new_policy_count r).
Proof.
  apply (top_performer_first_max sample_df).
  discriminate.
Defined.

(** Two agents tie at 10 policies; the earlier one, AG011, is shown. *)
Example top_performer_sample : top_performer sample_df = Ok "AG011".
Proof. reflexivity. Qed.

Example top_performer_empty : top_performer [] = Err ValueError.
Proof. reflexivity. Qed.

(** *** Binary64 addition of small integers is exact *)

Lemma digits_below (p : positive) (k : Z) :
  Z.pos p < 2 ^ k -> Z.pos (digits2_pos p) <= k.
Proof.
  intro H. pose proof (digits_lower p) as L.
  destruct (Z.le_gt_cases (Z.pos (digits2_pos p)) k) as [G | G]; [exact G |].
  assert (0 <= k).
  { destruct (Z.le_gt_cases 0 k) as [K | K]; [exact K |].
    rewrite Z.pow_neg_r in H by lia. lia. }
  assert (2 ^ k <= 2 ^ (Z.pos (digits2_pos p) - 1))
    by (apply Z.pow_le_mono_r; lia).
  lia.
Qed.

Lemma iter_xO_succ (m d : positive) :
  Pos.iter xO m (Pos.succ d) = xO (Pos.iter xO m d).
Proof. apply Pos.iter_succ. Qed.

Lemma iter_xO_Z (m d : positive) :
  Z.pos (Pos.iter xO m d) = Z.pos m * 2 ^ Z.pos d.
Proof.
  induction d as [| d IH] using Pos.peano_ind.
  - cbn [Pos.iter]. lia.
  - rewrite iter_xO_succ, Pos2Z.inj_xO, IH, Pos2Z.inj_succ, Z.pow_succ_r by lia.
    lia.
Qed.

Lemma iter_xO_digits (m d : positive) :
  Z.pos (digits2_pos (Pos.iter xO m d)) = Z.pos (digits2_pos m) + Z.pos d.
Proof.
  induction d as [| d IH] using Pos.peano_ind.
  - cbn [Pos.iter digits2_pos]. lia.
  - rewrite iter_xO_succ. cbn [digits2_pos]. rewrite Pos2Z.inj_succ, IH. lia.
Qed.

Lemma shiftp_Z (m : positive) (k : Z) :
  0 <= k -> Z.pos (shiftp m k) = Z.pos m * 2 ^ k.
Proof.
  intro H. destruct k as [| d | d]; cbn [shiftp]; try lia.
  apply iter_xO_Z.
Qed.

Lemma shiftp_digits (m : positive) (k : Z) :
  0 <= k -> Z.pos (digits2_pos (shiftp m k)) = Z.pos (digits2_pos m) + k.
Proof.
  intro H. destruct k as [| d | d]; cbn [shiftp]; try lia.
  apply iter_xO_digits.
Qed.

Lemma shiftp_shiftp (m : positive) (j k : Z) :
  0 <= j -> 0 <= k -> shiftp (shiftp m j) k = shiftp m (j + k).
Proof.
  intros Hj Hk. apply Pos2Z.inj.
  rewrite !shiftp_Z by lia. rewrite Z.pow_add_r by lia. lia.
Qed.

Lemma iter_pos_iter {A : Type} (f : A -> A) (p : positive) (x : A) :
  iter_pos f p x = Pos.iter f x p.
Proof.
  revert x. induction p as [p IH | p IH |]; intro x; cbn [iter_pos Pos.iter].
  - rewrite !IH. rewrite <- !Pos.iter_swap. reflexivity.
  - rewrite !IH. reflexivity.
  - reflexivity.
Qed.

(** Shifting out bits that are all zero leaves an exact record. *)
Lemma shr_exact (d m : positive) :
  iter_pos shr_1 d (Build_shr_record (Z.pos (Pos.iter xO m d)) false false) =
  Build_shr_record (Z.pos m) false false.
Proof.
  rewrite iter_pos_iter.
  induction d as [| d IH] using Pos.peano_ind.
  - reflexivity.
  - rewrite iter_xO_succ, Pos.iter_succ, <- Pos.iter_swap.
    cbn [shr_1 orb]. exact IH.
Qed.

Lemma shr_fexp_canonical (m : positive) (e : Z) :
  Z.pos (digits2_pos m) = 53 -> -1074 <= e ->
  shr_fexp 53 1024 (Z.pos m) e loc_Exact =
  (Build_shr_record (Z.pos m) false false, e).
Proof.
  intros Hd He.
  unfold shr_fexp, shr, fexp, emin. cbn [Zdigits2 shr_record_of_loc].
  rewrite Hd.
  replace (Z.max (53 + e - 53) (3 - 1024 - 53) - e) with 0 by lia.
  reflexivity.
Qed.

Lemma round_final (m : positive) (e : Z) :
  Z.pos (digits2_pos m) = 53 -> -1074 <= e <= 971 ->
  (let '(mrs, e2) := shr_fexp 53 1024 (Z.pos m) e loc_Exact in
   match shr_m mrs with
   | 0 => S754_zero false
   | Z.pos q =>
       if e2 <=? 1024 - 53 then S754_finite false q e2
       else S754_infinity false
   | Z.neg _ => S754_nan
   end) = S754_finite false m e.
Proof.
  intros Hd He. rewrite shr_fexp_canonical by (assumption || lia).
  cbn [shr_m].
  replace (e <=? 1024 - 53) with true by (symmetry; apply Z.leb_le; lia).
  reflexivity.
Qed.

Lemma round_canonical (m : positive) (e : Z) :
  Z.pos (digits2_pos m) = 53 -> -1074 <= e <= 971 ->
  binary_round_aux 53 1024 false (Z.pos m) e loc_Exact = S754_finite false m e.
Proof.
  intros Hd He. unfold binary_round_aux.
  rewrite shr_fexp_canonical by (assumption || lia).
  cbn [shr_m loc_of_shr_record round_nearest_even].
  apply round_final; assumption.
Qed.

Lemma round_shifted (c : positive) (j e : Z) :
  let D := Z.pos (digits2_pos c) in
  D <= 53 -> 53 <= D + j -> -1074 <= e -> e + (D + j - 53) <= 971 ->
  binary_round_aux 53 1024 false (Z.pos (shiftp c j)) e loc_Exact =
  S754_finite false (shiftp c (53 - D)) (e + (D + j - 53)).
Proof.
  intros D HD Hj He1 He2.
  assert (Hj0 : 0 <= j) by lia.
  destruct (Z.eq_dec (D + j) 53) as [E | E].
  - replace (53 - D) with j by lia. replace (e + (D + j - 53)) with e by lia.
    apply round_canonical; [| lia].
    rewrite shiftp_digits by lia. fold D. lia.
  - assert (Hn : 0 < D + j - 53) by lia.
    destruct (D + j - 53) as [| n | n] eqn:En; try lia.
    assert (Hsplit : shiftp c j = Pos.iter xO (shiftp c (53 - D)) n).
    { change (Pos.iter xO (shiftp c (53 - D)) n)
        with (shiftp (shiftp c (53 - D)) (Z.pos n)).
      rewrite shiftp_shiftp by lia. f_equal. lia. }
    assert (Hs : shr_fexp 53 1024 (Z.pos (shiftp c j)) e loc_Exact =
                 (Build_shr_record (Z.pos (shiftp c (53 - D))) false false,
                  e + Z.pos n)).
    { unfold shr_fexp, shr, fexp, emin. cbn [Zdigits2 shr_record_of_loc].
      rewrite shiftp_digits by lia. fold D.
      replace (Z.max (D + j + e - 53) (3 - 1024 - 53) - e) with (Z.pos n) by lia.
      rewrite Hsplit, shr_exact. reflexivity. }
    unfold binary_round_aux. rewrite Hs.
    cbn [shr_m loc_of_shr_record round_nearest_even].
    apply round_final; [| lia].
    rewrite shiftp_digits by lia. fold D. lia.
Qed.

Lemma binary_round_shift (c : positive) (k : Z) :
  let D := Z.pos (digits2_pos c) in
  D <= 53 -> 0 <= k <= 1074 ->
  binary_round 53 1024 false (shiftp c k) (- k) = canon c.
Proof.
  intros D HD Hk. unfold binary_round, shl_align, canon. fold D.
  rewrite shiftp_digits by lia. fold D.
  assert (Hf : fexp 53 1024 (D + k + - k) = D - 53).
  { unfold fexp, emin. pose proof (Pos2Z.is_pos (digits2_pos c)). fold D in H. lia. }
  rewrite Hf.
  destruct (D - 53 - - k) as [| d | d] eqn:Ed.
  - replace (D - 53) with (- k + (D + k - 53)) by lia.
    apply round_shifted; fold D; lia.
  - replace (D - 53) with (- k + (D + k - 53)) by lia.
    apply round_shifted; fold D; lia.
  - change (Pos.iter xO (shiftp c k) d) with (shiftp (shiftp c k) (Z.pos d)).
    rewrite shiftp_shiftp by lia.
    replace (k + Z.pos d) with (53 - D) by lia.
    apply round_canonical; [| lia].
    rewrite shiftp_digits by lia. fold D. lia.
Qed.

Lemma float_of_int64_pos (c : positive) :
  Z.pos c < 2 ^ 53 -> float_of_int64 (Z.pos c) = canon c.
Proof.
  intro H. unfold float_of_int64, binary_normalize.
  change c with (shiftp c 0) at 1. change 0 with (- 0) at 2.
  apply binary_round_shift; [apply digits_below; exact H | lia].
Qed.

Lemma shl_align_canon (c : positive) (ez : Z) :
  let D := Z.pos (digits2_pos c) in
  D <= 53 -> ez <= D - 53 ->
  fst (shl_align (shiftp c (53 - D)) (D - 53) ez) = shiftp c (- ez).
Proof.
  intros D HD H. unfold shl_align.
  destruct (ez - (D - 53)) as [| d | d] eqn:Ed; cbn [fst].
  - f_equal. lia.
  - lia.
  - change (Pos.iter xO (shiftp c (53 - D)) d)
      with (shiftp (shiftp c (53 - D)) (Z.pos d)).
    rewrite shiftp_shiftp by lia. f_equal. lia.
Qed.

Lemma add_canon (a b : positive) :
  Z.pos a + Z.pos b < 2 ^ 53 ->
  SFadd 53 1024 (canon a) (canon b) = canon (a + b).
Proof.
  intro H.
  assert (Ha : Z.pos (digits2_pos a) <= 53) by (apply digits_below; lia).
  assert (Hb : Z.pos (digits2_pos b) <= 53) by (apply digits_below; lia).
  assert (Hc : Z.pos (digits2_pos (a + b)) <= 53)
    by (apply digits_below; rewrite Pos2Z.inj_add; lia).
  unfold canon at 1 2. unfold SFadd. cbn [cond_Zopp].
  set (ez := Z.min (Z.pos (digits2_pos a) - 53) (Z.pos (digits2_pos b) - 53)).
  rewrite (shl_align_canon a ez) by (unfold ez; lia).
  rewrite (shl_align_canon b ez) by (unfold ez; lia).
  assert (Hk : 0 <= - ez <= 1074).
  { pose proof (Pos2Z.is_pos (digits2_pos a)).
    pose proof (Pos2Z.is_pos (digits2_pos b)). unfold ez. lia. }
  assert (Hsum : Z.pos (shiftp a (- ez)) + Z.pos (shiftp b (- ez)) =
                 Z.pos (shiftp (a + b) (- ez))).
  { rewrite !shiftp_Z by lia. rewrite Pos2Z.inj_add. lia. }
  rewrite Hsum. unfold binary_normalize.
  replace ez with (- - ez) at 2 by lia.
  apply binary_round_shift; [exact Hc | exact Hk].
Qed.

(** Adding two non-negative integers in binary64 is exact as long as the
    sum stays below 2^53. *)
Lemma add_exact (a b : Z) :
  0 <= a -> 0 <= b -> a + b < 2 ^ 53 ->
  SFadd 53 1024 (float_of_int64 a) (float_of_int64 b) = float_of_int64 (a + b).
Proof.
  intros Ha Hb H.
  destruct a as [| a | a]; try lia; destruct b as [| b | b]; try lia.
  - reflexivity.
  - cbn [Z.add]. rewrite float_of_int64_pos by lia. reflexivity.
  - rewrite Z.add_0_r. rewrite float_of_int64_pos by lia. reflexivity.
  - rewrite <- Pos2Z.inj_add.
    rewrite !float_of_int64_pos by (rewrite ?Pos2Z.inj_add; lia).
    apply add_canon. exact H.
Qed.

(** *** Binary64 division of small integers *)

Lemma digits_exact (p : positive) (k : Z) :
  2 ^ (k - 1) <= Z.pos p < 2 ^ k -> Z.pos (digits2_pos p) = k.
Proof.
  intros [Hl Hu].
  pose proof (digits_lower p) as L. pose proof (digits_upper p) as U.
  pose proof (digits_below p k Hu) as B.
  destruct (Z.le_gt_cases k (Z.pos (digits2_pos p))) as [G | G]; [lia |].
  assert (0 <= k - 1).
  { destruct (Z.le_gt_cases 0 (k - 1)) as [K | K]; [exact K |]. lia. }
  assert (2 ^ Z.pos (digits2_pos p) <= 2 ^ (k - 1))
    by (apply Z.pow_le_mono_r; lia).
  lia.
Qed.

Lemma two_power_pos (e : Z) : (0 < 2 ^ e)%Q.
Proof. apply Qpower_0_lt. reflexivity. Qed.

Lemma two_power_succ (e : Z) : (2 ^ (e + 1) == 2 * 2 ^ e)%Q.
Proof.
  rewrite Qpower_plus by discriminate. change ((2:Q) ^ 1)%Q with (2:Q)%Q.
  ring.
Qed.

(** Rounding a mantissa of at least 53 bits: the result stands for the
    mantissa cut to 53 bits, or that plus one, at the exponent raised by
    the number of bits cut. *)
Lemma round_enclosure (p : positive) (e : Z) (l : location) :
  let D := Z.pos (digits2_pos p) in
  53 <= D -> -1074 <= e -> e + (D - 53) + 1 <= 971 ->
  exists m1 : Z,
    Z.pos p / 2 ^ (D - 53) <= m1 <= Z.pos p / 2 ^ (D - 53) + 1 /\
    (float_value (binary_round_aux 53 1024 false (Z.pos p) e l) ==
     inject_Z m1 * 2 ^ (e + (D - 53)))%Q.
Proof.
  intros D HD He Hmax.
  set (n := D - 53). set (m := Z.pos p / 2 ^ n).
  assert (Hpow : 0 < 2 ^ n) by (apply Z.pow_pos_nonneg; lia).
  assert (Hm : 2 ^ 52 <= m < 2 ^ 53).
  { pose proof (digits_lower p) as L. pose proof (digits_upper p) as U.
    fold D in L, U. unfold m. split.
    - apply Z.div_le_lower_bound; [exact Hpow |].
      rewrite <- Z.pow_add_r by lia. unfold n.
      replace (D - 53 + 52) with (D - 1) by lia. exact L.
    - apply Z.div_lt_upper_bound; [exact Hpow |].
      rewrite <- Z.pow_add_r by lia. unfold n.
      replace (D - 53 + 53) with D by lia. exact U. }
  assert (Hs : exists mrs,
             shr_fexp 53 1024 (Z.pos p) e l = (mrs, e + n) /\ shr_m mrs = m).
  { unfold shr_fexp, shr, fexp, emin. cbn [Zdigits2]. fold D.
    replace (Z.max (D + e - 53) (3 - 1024 - 53) - e) with n by (unfold n; lia).
    destruct n as [| k | k] eqn:En; try lia.
    - eexists. split; [f_equal; lia |].
      rewrite shr_record_of_loc_m. unfold m. rewrite Z.pow_0_r, Z.div_1_r.
      reflexivity.
    - eexists. split; [reflexivity |].
      rewrite shr_iter_m by (rewrite shr_record_of_loc_m; lia).
      rewrite shr_record_of_loc_m, Z.shiftr_div_pow2 by lia. reflexivity. }
  destruct Hs as (mrs & Hs & Hmrs).
  unfold binary_round_aux. rewrite Hs, Hmrs.
  pose proof (round_nearest_even_ge m (loc_of_shr_record mrs)) as Hge.
  assert (Hle : round_nearest_even m (loc_of_shr_record mrs) <= m + 1).
  { destruct (loc_of_shr_record mrs) as [| []]; cbn [round_nearest_even];
      try lia. destruct (Z.even m); lia. }
  set (m1 := round_nearest_even m (loc_of_shr_record mrs)) in *.
  exists m1. split; [lia |].
  destruct m1 as [| q | q] eqn:Em1; try lia.
  destruct (Z.eq_dec (Z.pos q) (2 ^ 53)) as [Ecarry | Ecarry].
  - (* the mantissa was rounded up to 2^53 *)
    assert (Hq : q = (4503599627370496~0)%positive).
    { apply Pos2Z.inj. rewrite Ecarry. reflexivity. }
    subst q.
    assert (Hs2 : shr_fexp 53 1024 (Z.pos 4503599627370496~0) (e + n) loc_Exact =
                  (Build_shr_record (Z.pos 4503599627370496) false false,
                   e + n + 1)).
    { unfold shr_fexp, shr, fexp, emin. cbn [Zdigits2 shr_record_of_loc].
      change (Z.pos (digits2_pos 4503599627370496~0)) with 54.
      replace (Z.max (54 + (e + n) - 53) (3 - 1024 - 53) - (e + n)) with 1
        by lia.
      reflexivity. }
    rewrite Hs2. cbn [shr_m].
    replace (e + n + 1 <=? 1024 - 53) with true
      by (symmetry; apply Z.leb_le; unfold n; lia).
    cbn [float_value]. rewrite two_power_succ.
    change (inject_Z (Z.pos 4503599627370496~0))
      with (2 * inject_Z (Z.pos 4503599627370496))%Q.
    ring.
  - assert (Hd : Z.pos (digits2_pos q) = 53)
      by (apply digits_exact; change (2 ^ (53 - 1)) with (2 ^ 52); lia).
    rewrite round_final by (assumption || unfold n; lia).
    reflexivity.
Qed.

Lemma Q_frac_le (a b c d : Z) :
  0 < b -> 0 < d -> a * d <= c * b ->
  (inject_Z a / inject_Z b <= inject_Z c / inject_Z d)%Q.
Proof.
  intros Hb Hd H.
  destruct b as [| b | b]; try lia. destruct d as [| d | d]; try lia.
  unfold Qle, Qdiv, Qmult, Qinv, inject_Z. cbn [Qnum Qden].
  rewrite !Z.mul_1_r, !Pos.mul_1_l. exact H.
Qed.

Lemma Q_mul_frac (m P R : Z) :
  (inject_Z m * (inject_Z P / inject_Z R) == inject_Z (m * P) / inject_Z R)%Q.
Proof.
  unfold Qdiv. rewrite inject_Z_mult. ring.
Qed.

Lemma two_power_ratio (a b : Z) :
  0 <= a -> 0 <= b ->
  (2 ^ (a - b) == inject_Z (2 ^ a) / inject_Z (2 ^ b))%Q.
Proof.
  intros Ha Hb. rewrite !Zpower_Qpower by assumption.
  change (inject_Z 2) with (2:Q)%Q.
  unfold Z.sub. rewrite Qpower_plus by discriminate.
  rewrite Qpower_opp. reflexivity.
Qed.

(** The binary64 quotient of two positive integers below 2^53 is within
    one unit in the last place of their exact quotient. *)
Lemma div_canon_accuracy (cS cn : positive) :
  Z.pos cS < 2 ^ 53 -> Z.pos cn < 2 ^ 53 ->
  (Qabs (float_value (SFdiv 53 1024 (canon cS) (canon cn)) -
         inject_Z (Z.pos cS) / inject_Z (Z.pos cn)) * 4503599627370496
   <= inject_Z (Z.pos cS) / inject_Z (Z.pos cn))%Q.
Proof.
  intros HS Hn.
  set (DS := Z.pos (digits2_pos cS)). set (Dn := Z.pos (digits2_pos cn)).
  assert (HDS : 1 <= DS <= 53) by (unfold DS; split; [lia | apply digits_below; exact HS]).
  assert (HDn : 1 <= Dn <= 53) by (unfold Dn; split; [lia | apply digits_below; exact Hn]).
  set (mS := shiftp cS (53 - DS)). set (mn := shiftp cn (53 - Dn)).
  assert (EmS : Z.pos mS = Z.pos cS * 2 ^ (53 - DS)) by (apply shiftp_Z; lia).
  assert (Emn : Z.pos mn = Z.pos cn * 2 ^ (53 - Dn)) by (apply shiftp_Z; lia).
  assert (DmS : Z.pos (digits2_pos mS) = 53)
    by (unfold mS; rewrite shiftp_digits by lia; fold DS; lia).
  assert (Dmn : Z.pos (digits2_pos mn) = 53)
    by (unfold mn; rewrite shiftp_digits by lia; fold Dn; lia).
  assert (BmS : 2 ^ 52 <= Z.pos mS < 2 ^ 53).
  { pose proof (digits_lower mS). pose proof (digits_upper mS).
    rewrite DmS in *. change (2 ^ (53 - 1)) with (2 ^ 52) in *. lia. }
  assert (Bmn : 2 ^ 52 <= Z.pos mn < 2 ^ 53).
  { pose proof (digits_lower mn). pose proof (digits_upper mn).
    rewrite Dmn in *. change (2 ^ (53 - 1)) with (2 ^ 52) in *. lia. }
  set (e' := DS - Dn - 53).
  set (q0 := Z.pos mS * 2 ^ 53 / Z.pos mn).
  assert (Hdiv : SFdiv 53 1024 (canon cS) (canon cn) =
                 binary_round_aux 53 1024 false q0 e'
                   (new_location (Z.pos mn) (Z.pos mS * 2 ^ 53 mod Z.pos mn))).
  { unfold canon, SFdiv, SFdiv_core_binary. fold DS Dn mS mn.
    cbn [Zdigits2 xorb]. rewrite DmS, Dmn. unfold fexp, emin.
    replace (Z.min (Z.max (53 + (DS - 53) - (53 + (Dn - 53)) - 53) (3 - 1024 - 53))
               (DS - 53 - (Dn - 53))) with e' by (unfold e'; lia).
    replace (DS - 53 - (Dn - 53) - e') with 53 by (unfold e'; lia).
    rewrite Z.shiftl_mul_pow2 by lia.
    unfold q0, Z.div, Z.modulo.
    destruct (Z.div_eucl (Z.pos mS * 2 ^ 53) (Z.pos mn)). reflexivity. }
  rewrite Hdiv.
  assert (Bq0 : 2 ^ 52 <= q0 < 2 ^ 54).
  { unfold q0. split.
    - apply Z.div_le_lower_bound; [lia |]. nia.
    - apply Z.div_lt_upper_bound; [lia |].
      change (2 ^ 54) with (2 * 2 ^ 53). nia. }
  destruct q0 as [| p | p] eqn:Eq0; try lia.
  set (D0 := Z.pos (digits2_pos p)).
  assert (HD0 : 53 <= D0 <= 54).
  { unfold D0. split.
    - pose proof (digits_upper p) as U.
      destruct (Z.le_gt_cases 53 (Z.pos (digits2_pos p))) as [G | G];
        [exact G |].
      assert (2 ^ Z.pos (digits2_pos p) <= 2 ^ 52)
        by (apply Z.pow_le_mono_r; lia).
      lia.
    - apply digits_below. lia. }
  destruct (round_enclosure p e'
              (new_location (Z.pos mn) (Z.pos mS * 2 ^ 53 mod Z.pos mn)))
    as (m1 & Hm1 & Hval); fold D0; try (unfold e'; lia).
  fold D0 in Hm1, Hval.
  set (n1 := D0 - 53) in *.
  set (m := Z.pos p / 2 ^ n1) in *.
  set (t := (2 ^ (e' + n1))%Q) in *.
  set (mu := (inject_Z (Z.pos cS) / inject_Z (Z.pos cn))%Q).
  assert (Ht : (0 < t)%Q) by apply two_power_pos.
  assert (Hpn : 0 < 2 ^ n1) by (apply Z.pow_pos_nonneg; unfold n1; lia).
  assert (Hm52 : 2 ^ 52 <= m).
  { unfold m. apply Z.div_le_lower_bound; [exact Hpn |].
    pose proof (digits_lower p) as L. fold D0 in L.
    rewrite <- Z.pow_add_r by (unfold n1; lia).
    replace (n1 + 52) with (D0 - 1) by (unfold n1; lia). exact L. }
  (* the integer enclosure of the exact quotient *)
  assert (Hdd : m = Z.pos mS * 2 ^ 53 / (Z.pos mn * 2 ^ n1)).
  { unfold m. rewrite <- Eq0. unfold q0. apply Z.div_div; lia. }
  assert (HB : 0 < Z.pos mn * 2 ^ n1) by lia.
  assert (Hlow : Z.pos mn * 2 ^ n1 * m <= Z.pos mS * 2 ^ 53)
    by (rewrite Hdd; apply Z.mul_div_le; exact HB).
  assert (Hupp : Z.pos mS * 2 ^ 53 < Z.pos mn * 2 ^ n1 * (m + 1)).
  { rewrite Hdd.
    pose proof (Z.mul_succ_div_gt (Z.pos mS * 2 ^ 53) (Z.pos mn * 2 ^ n1) HB).
    lia. }
  (* the unit in the last place as a ratio of integers *)
  set (k1 := 53 - DS) in *. set (k2 := 53 - Dn) in *.
  assert (Hk1 : 0 < 2 ^ k1) by (apply Z.pow_pos_nonneg; unfold k1; lia).
  assert (Hk2 : 0 < 2 ^ k2) by (apply Z.pow_pos_nonneg; unfold k2; lia).
  assert (Et : (t == inject_Z (2 ^ (k2 + n1)) / inject_Z (2 ^ (k1 + 53)))%Q).
  { unfold t. replace (e' + n1) with (k2 + n1 - (k1 + 53))
      by (unfold e', k1, k2; lia).
    apply two_power_ratio; unfold k1, k2, n1; lia. }
  assert (HR : 0 < 2 ^ (k1 + 53))
    by (apply Z.pow_pos_nonneg; unfold k1; lia).
  assert (EP : 2 ^ (k2 + n1) = 2 ^ k2 * 2 ^ n1)
    by (apply Z.pow_add_r; unfold k2, n1; lia).
  assert (ER : 2 ^ (k1 + 53) = 2 ^ k1 * 2 ^ 53)
    by (apply Z.pow_add_r; unfold k1; lia).
  assert (Hmt : forall z : Z,
             (inject_Z z * t ==
              inject_Z (z * 2 ^ (k2 + n1)) / inject_Z (2 ^ (k1 + 53)))%Q).
  { intro z. rewrite Et. apply Q_mul_frac. }
  assert (L : (inject_Z m * t <= mu)%Q).
  { rewrite Hmt. unfold mu. apply Q_frac_le; [exact HR | lia |].
    rewrite EP, ER. rewrite EmS, Emn in Hlow. fold k1 k2 in Hlow. nia. }
  assert (U : (mu <= inject_Z (m + 1) * t)%Q).
  { rewrite Hmt. unfold mu. apply Q_frac_le; [lia | exact HR |].
    rewrite EP, ER. rewrite EmS, Emn in Hupp. fold k1 k2 in Hupp. nia. }
  assert (L1 : (inject_Z m * t <= inject_Z m1 * t)%Q).
  { apply Qmult_le_compat_r; [| apply Qlt_le_weak, Ht].
    rewrite <- Zle_Qle. lia. }
  assert (U1 : (inject_Z m1 * t <= inject_Z (m + 1) * t)%Q).
  { apply Qmult_le_compat_r; [| apply Qlt_le_weak, Ht].
    rewrite <- Zle_Qle. lia. }
  assert (B52 : (4503599627370496 * t <= inject_Z m * t)%Q).
  { apply Qmult_le_compat_r; [| apply Qlt_le_weak, Ht].
    change (4503599627370496%Q) with (inject_Z (2 ^ 52)).
    rewrite <- Zle_Qle. exact Hm52. }
  assert (E1 : (inject_Z (m + 1) * t == inject_Z m * t + t)%Q)
    by (rewrite inject_Z_plus; change (inject_Z 1) with 1%Q; ring).
  rewrite Hval.
  set (a := (inject_Z m * t)%Q) in *.
  set (q := (inject_Z m1 * t)%Q) in *.
  rewrite E1 in U, U1.
  apply Qabs_case; intro Hsign; lra.
Qed.

Lemma div_accuracy (S n : Z) :
  0 <= S < 2 ^ 53 -> 0 < n < 2 ^ 53 ->
  (Qabs (float_value
           (SFdiv 53 1024 (float_of_int64 S) (float_of_int64 n)) -
         inject_Z S / inject_Z n) * 4503599627370496
   <= inject_Z S / inject_Z n)%Q.
Proof.
  intros HS Hn.
  destruct n as [| cn | cn]; try lia.
  rewrite (float_of_int64_pos cn) by lia.
  destruct S as [| cS | cS]; try lia.
  - vm_compute. discriminate.
  - rewrite (float_of_int64_pos cS) by lia.
    apply div_canon_accuracy; lia.
Qed.

(** *** The average card *)

Lemma sum_Z_perm (l l' : list Z) : Permutation l l' -> sum_Z l = sum_Z l'.
Proof.
  unfold sum_Z.
  induction 1; cbn [fold_right]; lia.
Qed.

Lemma sum_Z_app (l l' : list Z) : sum_Z (l ++ l') = sum_Z l + sum_Z l'.
Proof.
  unfold sum_Z. induction l as [| x t IH]; cbn [app fold_right]; lia.
Qed.

Lemma sum_Z_nonneg (l : list Z) : Forall (fun x => 0 <= x) l -> 0 <= sum_Z l.
Proof.
  unfold sum_Z. induction 1; cbn [fold_right]; lia.
Qed.

(** Whatever the order of the additions, the float sum of non-negative
    counts is their exact sum, as long as that sum is below 2^53. *)
Lemma reduce_exact (t : Reduction) :
  Forall (fun x => 0 <= x) (terms t) -> sum_Z (terms t) < 2 ^ 53 ->
  reduce t = float_of_int64 (sum_Z (terms t)).
Proof.
  induction t as [x | l IHl r IHr]; cbn [terms reduce]; intros Hpos Hsum.
  - unfold sum_Z. cbn [fold_right]. now rewrite Z.add_0_r.
  - apply Forall_app in Hpos as [Hl Hr].
    rewrite sum_Z_app in *.
    pose proof (sum_Z_nonneg _ Hl). pose proof (sum_Z_nonneg _ Hr).
    rewrite IHl, IHr by (assumption || lia).
    apply add_exact; lia.
Qed.

Lemma terms_fold (t : list Z) (acc : Reduction) :
  terms (fold_left (fun a y => Add a (Term y)) t acc) = terms acc ++ t.
Proof.
  revert acc. induction t as [| y t IH]; intro acc; cbn [fold_left].
  - now rewrite app_nil_r.
  - rewrite IH. cbn [terms]. now rewrite <- app_assoc.
Qed.

Lemma in_index_order_contract : sum_contract in_index_order.
Proof.
  intros [| x t] Hne; [contradiction |].
  unfold in_index_order. rewrite terms_fold. reflexivity.
Qed.

Lemma mean_exact (order : SumOrder) (col : list Z) :
  sum_contract order -> col <> [] ->
  Forall (fun x => 0 <= x) col -> sum_Z col < 2 ^ 53 ->
  mean order col =
  Some (float_value
          (SFdiv 53 1024 (float_of_int64 (sum_Z col))
             (float_of_int64 (Z.of_nat (List.length col))))).
Proof.
  intros Horder Hne Hpos Hsum.
  pose proof (Horder col Hne) as Hp.
  destruct col as [| x t]; [contradiction |].
  unfold mean. rewrite reduce_exact.
  - now rewrite (sum_Z_perm _ _ Hp).
  - eapply Permutation_Forall; [symmetry; exact Hp | exact Hpos].
  - now rewrite (sum_Z_perm _ _ Hp).
Qed.

(** The two orders of the frame with one count of 2^53 give different
    averages: adding 1 to 2^53 twice is lost to rounding, adding 2 is not. *)
Example avg_new_policies_order_dependent :
  avg_new_policies in_index_order df_big_first <>
  avg_new_policies in_index_order df_big_last.
Proof. vm_compute. discriminate. Qed.

(** C8, as stated, fails: the average is a binary64 number obtained from a
    binary64 sum, so for the three counts 2^53, 1, 1 it depends on the
    order of the records. *)
Lemma avg_new_policies_counterexample :
  ~ (forall order : SumOrder, sum_contract order ->
     forall df : DataFrame, df <> [] ->
     exists q : Q,
       avg_new_policies order df = Some q /\
       (q == inject_Z (sum_Z (column new_policy_count df)) /
             inject_Z (Z.of_nat (total_agents df)))%Q /\
       forall df' : DataFrame,
         Permutation df df' -> avg_new_policies order df' = Some q).
Proof.
  intro H.
  destruct (H in_index_order in_index_order_contract df_big_first
              ltac:(discriminate)) as (q & Hq & _ & Hperm).
  specialize (Hperm df_big_last).
  apply avg_new_policies_order_dependent.
  rewrite Hq. symmetry. apply Hperm.
  apply (Permutation_cons_append
           [counted_agent "C2" 1; counted_agent "C3" 1]
           (counted_agent "C1" 9007199254740992)).
Qed.

(** C8, amended: for a non-empty frame of fewer than 2^53 records with
    non-negative counts whose sum is below 2^53, the average card holds
    the binary64 quotient of the exact column sum by the number of
    records, whatever the order in which the counts are added; that number
    differs from the arithmetic mean by at most one part in 2^52 of the
    mean, and any reordering of the records leaves it unchanged. *)
Theorem avg_new_policies_mean
  (order : SumOrder) (Horder : sum_contract order)
  (df : DataFrame) (Hne : df <> [])
  (Hnonneg : forall r, In r df -> 0 <= new_policy_count r)
  (Hsum : sum_Z (column new_policy_count df) < 2 ^ 53)
  (Hcount : Z.of_nat (total_agents df) < 2 ^ 53) :
  exists q : Q,
    avg_new_policies order df = Some q /\
    q = float_value
          (SFdiv 53 1024
             (float_of_int64 (sum_Z (column new_policy_count df)))
             (float_of_int64 (Z.of_nat (total_agents df)))) /\
    (Qabs (q - inject_Z (sum_Z (column new_policy_count df)) /
               inject_Z (Z.of_nat (total_agents df))) * 4503599627370496
     <= inject_Z (sum_Z (column new_policy_count df)) /
        inject_Z (Z.of_nat (total_agents df)))%Q /\
    forall df' : DataFrame,
      Permutation df df' -> avg_new_policies order df' = Some q.
Proof.
  assert (Hcol : forall d : DataFrame,
             Permutation df d ->
             column new_policy_count d <> [] /\
             Forall (fun x => 0 <= x) (column new_policy_count d) /\
             sum_Z (column new_policy_count d) =
               sum_Z (column new_policy_count df) /\
             List.length (column new_policy_count d) = total_agents df).
  { intros d Hp. repeat split.
    - intro E. apply map_eq_nil in E. subst d.
      apply Permutation_sym, Permutation_nil in Hp. contradiction.
    - apply Forall_forall. intros x Hx. unfold column in Hx.
      apply in_map_iff in Hx as (r & <- & Hr). apply Hnonneg.
      eapply Permutation_in; [symmetry; exact Hp | exact Hr].
    - apply sum_Z_perm. unfold column. apply Permutation_map.
      symmetry. exact Hp.
    - unfold column, total_agents. rewrite length_map.
      symmetry. apply Permutation_length, Hp. }
  eexists. split; [| split; [| split]].
  - destruct (Hcol df (Permutation_refl df)) as (H1 & H2 & _ & H4).
    unfold avg_new_policies. rewrite mean_exact by assumption.
    rewrite H4. reflexivity.
  - reflexivity.
  - destruct (Hcol df (Permutation_refl df)) as (_ & H2 & _ & _).
    apply div_accuracy.
    + split; [apply sum_Z_nonneg, H2 | exact Hsum].
    + split; [| exact Hcount].
      destruct df; [contradiction | cbn [total_agents List.length]; lia].
  - intros df' Hp. destruct (Hcol df' Hp) as (H1 & H2 & H3 & H4).
    unfold avg_new_policies. rewrite mean_exact by (assumption || lia).
    rewrite H3, H4. reflexivity.
Qed.

Lemma avg_new_policies_mean_witness :
  exists q : Q,
    avg_new_policies in_index_order sample_df = Some q /\
    q = float_value
          (SFdiv 53 1024
             (float_of_int64 (sum_Z (column new_policy_count sample_df)))
             (float_of_int64 (Z.of_nat (total_agents sample_df)))) /\
    (Qabs (q - inject_Z (sum_Z (column new_policy_count sample_df)) /
               inject_Z (Z.of_nat (total_agents sample_df)))
       * 4503599627370496
     <= inject_Z (sum_Z (column new_policy_count sample_df)) /
        inject_Z (Z.of_nat (total_agents sample_df)))%Q /\
    forall df' : DataFrame,
      Permutation sample_df df' -> avg_new_policies in_index_order df' = Some q.
Proof.
  apply (avg_new_policies_mean in_index_order in_index_order_contract
           sample_df).
  - discriminate.
  - intros r Hr. cbn in Hr.
    destruct Hr as [<- | [<- | [<- | []]]]; cbn; lia.
  - vm_compute. reflexivity.
  - vm_compute. reflexivity.
Defined.

(** Counts 2, 10 and 10: the card holds the double nearest to 22/3. *)
Example avg_new_policies_sample :
  avg_new_policies in_index_order sample_df =
  Some (8256599316845909 # 1125899906842624)%Q.
Proof. vm_compute. reflexivity. Qed.

(** That double is not the rational 22/3 itself. *)
Example avg_new_policies_sample_rounded :
  ~ (8256599316845909 # 1125899906842624 == 22 # 3)%Q.
Proof. vm_compute. discriminate. Qed.
(** ** Recomputing the outputs *)

Lemma nth_error_last (l : list Object) (o : Object) :
  nth_error (l ++ [o]) (List.length l) = Some o.
Proof.
  induction l as [| x t IH]; [reflexivity | exact IH].
Qed.

Lemma update_nth_last (f : Object -> Object) (l : list Object) (o : Object) :
  update_nth (List.length l) f (l ++ [o]) = l ++ [f o].
Proof.
  induction l as [| x t IH]; [reflexivity |].
  cbn [List.length app update_nth]. now rewrite IH.
Qed.

Ltac run_step :=
  cbv beta iota delta
    [respond run_bind run_ret read_df raise_or new_object modify read_object];
  cbn [global_df heap];
  rewrite ?update_nth_last, ?nth_error_last.

(** Each callback leaves [df] and the objects it found alone, adds its own
    objects behind them, and hands the browser what the pure reading of
    its body computes. *)
Lemma respond_policy_distribution (v : string) (m : Memory) :
  exists extra : list Object,
    respond (run_update_policy_distribution v) m =
    (as_figure (update_policy_distribution (global_df m) v),
     mkMemory (global_df m) (heap m ++ extra)).
Proof.
  unfold run_update_policy_distribution, update_policy_distribution.
  run_step.
  destruct (item0 (column new_policy_count (selected_rows (global_df m) v)))
    as [x | e]; cbn [bind as_figure]; run_step; eexists; reflexivity.
Qed.

Lemma respond_income_vs_policy (v : string) (m : Memory) :
  exists extra : list Object,
    respond (run_update_income_vs_policy v) m =
    (as_figure (update_income_vs_policy (global_df m) v),
     mkMemory (global_df m) (heap m ++ extra)).
Proof.
  unfold run_update_income_vs_policy, update_income_vs_policy.
  run_step. eexists. reflexivity.
Qed.

Lemma respond_risk_chart (sv : SortValues) (v : string) (m : Memory) :
  exists extra : list Object,
    respond (run_update_risk_chart sv v) m =
    (as_figure (update_risk_chart sv (global_df m) v),
     mkMemory (global_df m) (heap m ++ extra)).
Proof.
  unfold run_update_risk_chart, update_risk_chart, risk_ranking.
  run_step. eexists. reflexivity.
Qed.

Lemma respond_actions (v : string) (m : Memory) :
  exists extra : list Object,
    respond (run_update_actions v) m =
    (as_list (update_actions (global_df m) v),
     mkMemory (global_df m) (heap m ++ extra)).
Proof.
  unfold run_update_actions, update_actions, interventions.
  run_step.
  destruct (item0 (selected_rows (global_df m) v)) as [r | e];
    cbn [bind as_list]; run_step.
  - destruct (new_policy_count r <? 3), (unique_proposal r <? 10),
      (months_to_first_sale r >? 3);
      repeat (run_step; cbn [append object_not py_not app]);
      eexists; reflexivity.
  - destruct m as [d h]. exists []. cbn [global_df heap].
    now rewrite app_nil_r.
Qed.

Lemma fire_outputs (sv : SortValues) (v : string) (m : Memory) :
  exists extra : list Object,
    fire sv v m =
    (mkRendered
       (as_figure (update_policy_distribution (global_df m) v))
       (as_figure (update_income_vs_policy (global_df m) v))
       (as_figure (update_risk_chart sv (global_df m) v))
       (as_list (update_actions (global_df m) v)),
     mkMemory (global_df m) (heap m ++ extra)).
Proof.
  unfold fire.
  destruct (respond_policy_distribution v m) as (e1 & ->).
  destruct (respond_income_vs_policy v
              (mkMemory (global_df m) (heap m ++ e1))) as (e2 & ->).
  cbn [global_df heap].
  destruct (respond_risk_chart sv v
              (mkMemory (global_df m) ((heap m ++ e1) ++ e2))) as (e3 & ->).
  cbn [global_df heap].
  destruct (respond_actions v
              (mkMemory (global_df m) (((heap m ++ e1) ++ e2) ++ e3)))
    as (e4 & ->).
  cbn [global_df heap].
  exists (e1 ++ e2 ++ e3 ++ e4). now rewrite !app_assoc.
Qed.

(** C9: firing the four callbacks a second time for the same selection,
    on the memory the first firing left behind, hands the browser the same
    figures and the same intervention list; the firing leaves the frame
    bound to [df] and every object that existed before untouched, and its
    outputs depend on the memory through that frame only. *)
Theorem recompute_idempotent (sv : SortValues) (m : Memory) (v : string) :
  fst (fire sv v (snd (fire sv v m))) = fst (fire sv v m) /\
  global_df (snd (fire sv v m)) = global_df m /\
  firstn (List.length (heap m)) (heap (snd (fire sv v m))) = heap m /\
  fst (fire sv v m) =
    mkRendered
      (as_figure (update_policy_distribution (global_df m) v))
      (as_figure (update_income_vs_policy (global_df m) v))
      (as_figure (update_risk_chart sv (global_df m) v))
      (as_list (update_actions (global_df m) v)).
Proof.
  destruct (fire_outputs sv v m) as (e1 & H1). rewrite H1. cbn [fst snd].
  destruct (fire_outputs sv v (mkMemory (global_df m) (heap m ++ e1)))
    as (e2 & H2). rewrite H2. cbn [fst snd global_df heap].
  repeat split.
  rewrite firstn_app, Nat.sub_diag, firstn_all. cbn [firstn].
  apply app_nil_r.
Qed.

(** On a memory that still holds a list from an earlier call, the rule
    engine answers for AG011 with the fallback alone, twice in a row. *)
Example recompute_twice_sample :
  shown_action_items
    (fst (fire stable_sort_values "AG011" sample_memory)) =
    Ok (ListObject [Li msg_fallback]) /\
  shown_action_items
    (fst (fire stable_sort_values "AG011"
            (snd (fire stable_sort_values "AG011" sample_memory)))) =
    Ok (ListObject [Li msg_fallback]).
Proof. split; vm_compute; reflexivity. Qed.


(* ================================================================= *)
(** * Further properties of the dashboard code *)

(** ** The agent selector *)

Lemma seen_spec (x : string) (seen : list string) :
  existsb (String.eqb x) seen = true <-> In x seen.
Proof.
  rewrite existsb_exists. split.
  - intros (y & Hin & Heq). apply String.eqb_eq in Heq. now subst.
  - intro Hin. exists x. split; [exact Hin | apply String.eqb_refl].
Qed.

Lemma unique_from_In (l seen : list string) (x : string) :
  In x (unique_from seen l) <-> In x l /\ ~ In x seen.
Proof.
  revert seen. induction l as [| y t IH]; intro seen; cbn [unique_from].
  - cbn. tauto.
  - destruct (existsb (String.eqb y) seen) eqn:E.
    + apply seen_spec in E. rewrite IH. cbn [In]. split.
      * intros [Ht Hs]. split; [now right | exact Hs].
      * intros [[-> | Ht] Hs]; [contradiction | split; assumption].
    + assert (Hy : ~ In y seen).
      { intro Hin. apply seen_spec in Hin. congruence. }
      cbn [In]. rewrite IH. cbn [In]. split.
      * intros [-> | [Ht Hs]]; [split; [now left | exact Hy] |].
        split; [now right | tauto].
      * intros [[-> | Ht] Hs]; [now left |].
        destruct (string_dec y x) as [-> | Hne]; [now left |].
        right. split; [exact Ht |]. intros [Heq | Hin]; [congruence | tauto].
Qed.

Lemma unique_from_NoDup (l seen : list string) : NoDup (unique_from seen l).
Proof.
  revert seen. induction l as [| y t IH]; intro seen; cbn [unique_from].
  - constructor.
  - destruct (existsb (String.eqb y) seen); [apply IH |].
    constructor; [| apply IH].
    rewrite unique_from_In. cbn [In]. tauto.
Qed.

Lemma unique_from_distinct (l seen : list string) :
  NoDup l -> (forall x, In x l -> ~ In x seen) -> unique_from seen l = l.
Proof.
  intro Hnd. revert seen.
  induction Hnd as [| y t Hy Hnd IH]; intros seen Hdis; cbn [unique_from];
    [reflexivity |].
  destruct (existsb (String.eqb y) seen) eqn:E.
  - apply seen_spec in E. exfalso. apply (Hdis y); [now left | exact E].
  - f_equal. apply IH. intros x Hx [Heq | Hin].
    + subst. contradiction.
    + apply (Hdis x); [now right | exact Hin].
Qed.

Lemma has_agent_In (df : DataFrame) (code : string) :
  has_agent df code = true <-> In code (column agent_code df).
Proof.
  unfold has_agent, column. rewrite existsb_exists, in_map_iff. split.
  - intros (r & Hin & Heq). apply String.eqb_eq in Heq. now exists r.
  - intros (r & Heq & Hin). exists r. split; [exact Hin |].
    now apply String.eqb_eq.
Qed.

Lemma option_values (l : list string) :
  map opt_value (map (fun i => mkOption i i) l) = l.
Proof.
  rewrite map_map. cbn [opt_value]. apply map_id.
Qed.

(** X1: the dropdown offers every agent code of the frame exactly once:
    its option values are free of repetition, a code is offered exactly
    when some row carries it, and each option's label is its value. *)
Theorem agent_selector_options (df : DataFrame) (d : Dropdown)
  (Hsel : agent_selector df = Ok d) :
  NoDup (map opt_value (dd_options d)) /\
  (forall code : string,
     In code (map opt_value (dd_options d)) <-> has_agent df code = true) /\
  (forall o : DropdownOption, In o (dd_options d) -> opt_label o = opt_value o).
Proof.
  unfold agent_selector in Hsel.
  destruct (item0 (column agent_code df)) as [v | e]; cbn [bind] in Hsel;
    [| discriminate].
  inversion Hsel; subst d; clear Hsel. cbn [dd_options].
  rewrite option_values. split; [apply unique_from_NoDup |]. split.
  - intro code. unfold unique. rewrite unique_from_In, has_agent_In.
    cbn [In]. tauto.
  - intros o Hin. apply in_map_iff in Hin as (i & <- & _). reflexivity.
Qed.

Lemma agent_selector_options_witness :
  NoDup [ "AG010"; "AG011"; "AG012" ] /\
  (forall code : string,
     In code [ "AG010"; "AG011"; "AG012" ] <->
     has_agent sample_df_dup code = true).
Proof.
  destruct (agent_selector_options sample_df_dup
              (mkDropdown [ mkOption "AG010" "AG010"; mkOption "AG011" "AG011";
                            mkOption "AG012" "AG012" ] "AG010") eq_refl)
    as (Hnd & Hin & _).
  split; [exact Hnd | exact Hin].
Defined.

(** X2: when no agent code is repeated in the frame, the dropdown lists
    the codes in Dataset order, one option per record. *)
Theorem agent_selector_dataset_order (df : DataFrame) (d : Dropdown)
  (Hsel : agent_selector df = Ok d)
  (Hdistinct : NoDup (column agent_code df)) :
  map opt_value (dd_options d) = column agent_code df /\
  List.length (dd_options d) = total_agents df.
Proof.
  unfold agent_selector in Hsel.
  destruct (item0 (column agent_code df)) as [v | e]; cbn [bind] in Hsel;
    [| discriminate].
  inversion Hsel; subst d; clear Hsel. cbn [dd_options].
  assert (Hu : unique (column agent_code df) = column agent_code df).
  { apply unique_from_distinct; [exact Hdistinct | intros x _ []]. }
  rewrite option_values, Hu. split; [reflexivity |].
  unfold total_agents, column. now rewrite !length_map.
Qed.

Lemma sample_df_distinct : NoDup (column agent_code sample_df).
Proof.
  cbn. repeat constructor; cbn; intuition discriminate.
Defined.

Lemma agent_selector_dataset_order_witness :
  map opt_value [ mkOption "AG010" "AG010"; mkOption "AG011" "AG011";
                  mkOption "AG012" "AG012" ] = column agent_code sample_df /\
  List.length [ mkOption "AG010" "AG010"; mkOption "AG011" "AG011";
                mkOption "AG012" "AG012" ] = total_agents sample_df.
Proof.
  apply (agent_selector_dataset_order sample_df
           (mkDropdown [ mkOption "AG010" "AG010"; mkOption "AG011" "AG011";
                         mkOption "AG012" "AG012" ] "AG010") eq_refl).
  exact sample_df_distinct.
Defined.

(** X3: building the dropdown fails, with IndexError, exactly on an empty
    frame; otherwise its initial value is the first record's agent code,
    and that value is one of the options offered. *)
Theorem agent_selector_initial (df : DataFrame) :
  (df = [] -> agent_selector df = Err IndexError) /\
  (forall (r : AgentRecord) (t : DataFrame), df = r :: t ->
     exists d : Dropdown,
       agent_selector df = Ok d /\
       dd_value d = agent_code r /\
       In (mkOption (dd_value d) (dd_value d)) (dd_options d)) /\
  (agent_selector df = Err IndexError -> df = []).
Proof.
  split; [intros ->; reflexivity |]. split.
  - intros r t ->. eexists. split; [reflexivity |].
    cbn [dd_value dd_options]. split; [reflexivity |].
    apply in_map_iff. exists (agent_code r). split; [reflexivity |].
    unfold unique. apply unique_from_In.
    cbn [column map In]. split; [now left | tauto].
  - destruct df as [| r t]; [reflexivity | discriminate].
Qed.

(** ** Callbacks on a code that is in the frame *)

Lemma selected_rows_first (df : DataFrame) (code : string) (r : AgentRecord) :
  first_row df code = Some r ->
  agent_code r = code /\ In r df /\
  exists rest : DataFrame, selected_rows df code = r :: rest.
Proof.
  unfold first_row, selected_rows.
  induction df as [| a t IH]; cbn [find filter]; [discriminate |].
  destruct (String.eqb (agent_code a) code) eqn:E.
  - intro H. inversion H; subst a. apply String.eqb_eq in E.
    split; [exact E |]. split; [now left |]. eexists. reflexivity.
  - intro H. destruct (IH H) as (Hc & Hin & rest & Hr).
    split; [exact Hc |]. split; [now right |]. exists rest. exact Hr.
Qed.

Lemma first_row_present (df : DataFrame) (code : string) :
  has_agent df code = true -> exists r : AgentRecord, first_row df code = Some r.
Proof.
  unfold has_agent, first_row.
  induction df as [| a t IH]; cbn [existsb find]; [discriminate |].
  destruct (String.eqb (agent_code a) code); cbn [orb].
  - intros _. now exists a.
  - exact IH.
Qed.

(** X4: when the selected code is in the frame, the histogram carries the
    whole new_policy_count column and a single dashed red marker at the
    count of the first row with that code, and the interventions are those
    of that same first row, also when later rows repeat the code. *)
Theorem selection_uses_first_row
  (df : DataFrame) (code : string) (r : AgentRecord)
  (Hfirst : first_row df code = Some r) :
  update_policy_distribution df code =
    Ok (mkFigure "New Policy Count Distribution"
          [ Histogram (column new_policy_count df) 20 ]
          [ mkVLine (new_policy_count r) "dash" "red" ]
          (Some "new_policy_count") (Some "count")) /\
  update_actions df code = Ok (interventions r).
Proof.
  destruct (selected_rows_first df code r Hfirst) as (_ & _ & rest & Hsel).
  unfold update_policy_distribution, update_actions. rewrite Hsel.
  split; reflexivity.
Qed.

Lemma selection_uses_first_row_witness :
  update_policy_distribution sample_df_dup "AG010" =
    Ok (mkFigure "New Policy Count Distribution"
          [ Histogram (column new_policy_count sample_df_dup) 20 ]
          [ mkVLine (new_policy_count agent_needing_help) "dash" "red" ]
          (Some "new_policy_count") (Some "count")) /\
  update_actions sample_df_dup "AG010" = Ok (interventions agent_needing_help).
Proof.
  apply (selection_uses_first_row sample_df_dup "AG010" agent_needing_help).
  reflexivity.
Defined.


Lemma combine_columns {A B : Type} (f : AgentRecord -> A) (g : AgentRecord -> B)
  (l : DataFrame) :
  combine (column f l) (column g l) = map (fun r => (f r, g r)) l.
Proof.
  unfold column. induction l as [| a t IH]; cbn [map combine]; [reflexivity |].
  now rewrite IH.
Qed.


(** X6: every option the dropdown offers, and its initial value, is a
    selection for which all four callbacks return an output. *)
Theorem dropdown_choice_succeeds
  (sv : SortValues) (df : DataFrame) (d : Dropdown) (code : string)
  (Hsel : agent_selector df = Ok d)
  (Hchoice : code = dd_value d \/ In code (map opt_value (dd_options d))) :
  exists (f1 f2 f3 : Figure) (acts : list Component),
    recompute sv df code = mkOutputs (Ok f1) (Ok f2) (Ok f3) (Ok acts).
Proof.
  assert (Hpresent : has_agent df code = true).
  { unfold agent_selector in Hsel.
    destruct (item0 (column agent_code df)) as [v | e] eqn:Hv;
      cbn [bind] in Hsel; [| discriminate].
    inversion Hsel; subst d; clear Hsel. cbn [dd_value dd_options] in Hchoice.
    apply has_agent_In. destruct Hchoice as [-> | Hin].
    - destruct (column agent_code df) as [| c cs]; [discriminate |].
      cbn [item0] in Hv. inversion Hv. now left.
    - rewrite option_values in Hin. unfold unique in Hin.
      apply unique_from_In in Hin. tauto. }
  destruct (first_row_present df code Hpresent) as (r & Hr).
  destruct (selected_rows_first df code r Hr) as (_ & _ & rest & Hrows).
  unfold recompute, update_policy_distribution, update_actions,
    update_income_vs_policy, update_risk_chart.
  rewrite Hrows. cbn [column map item0 bind].
  do 4 eexists. reflexivity.
Qed.

Lemma dropdown_choice_succeeds_witness :
  exists (f1 f2 f3 : Figure) (acts : list Component),
    recompute stable_sort_values sample_df_dup "AG012" =
    mkOutputs (Ok f1) (Ok f2) (Ok f3) (Ok acts).
Proof.
  apply (dropdown_choice_succeeds stable_sort_values sample_df_dup
           (mkDropdown [ mkOption "AG010" "AG010"; mkOption "AG011" "AG011";
                         mkOption "AG012" "AG012" ] "AG010") "AG012" eq_refl).
  right. cbn. tauto.
Defined.

(** ** The risk chart on any frame *)

(** X7: on a frame of at most 20 records the risk chart ranks every
    record: the ranking is a rearrangement of the whole frame, in
    descending order of risk score. *)
Theorem risk_chart_small_frame
  (sv : SortValues) (Hsv : sort_contract sv)
  (df : DataFrame) (Hlen : (List.length df <= 20)%nat) :
  Permutation (risk_ranking sv df) df /\
  List.length (risk_ranking sv df) = total_agents df /\
  StronglySorted (fun a b => (risk_score b <= risk_score a)%Q)
    (risk_ranking sv df).
Proof.
  destruct (Hsv risk_score false df) as [Hp Hs].
  assert (Hall : risk_ranking sv df = sv risk_score false df).
  { unfold risk_ranking. apply firstn_all2.
    rewrite (Permutation_length Hp). exact Hlen. }
  rewrite Hall. split; [exact Hp |]. split.
  - unfold total_agents. apply Permutation_length, Hp.
  - exact Hs.
Qed.

Lemma risk_chart_small_frame_witness :
  Permutation (risk_ranking stable_sort_values sample_df) sample_df /\
  List.length (risk_ranking stable_sort_values sample_df) =
    total_agents sample_df /\
  StronglySorted (fun a b => (risk_score b <= risk_score a)%Q)
    (risk_ranking stable_sort_values sample_df).
Proof.
  apply (risk_chart_small_frame stable_sort_values
           stable_sort_values_contract sample_df).
  cbn. lia.
Defined.

(** X8: whatever the frame and the selection, the risk chart is returned
    with one bar series of min(20, number of records) bars, and every bar
    pairs an agent code with the risk score of a row of the frame carrying
    that code. *)
Theorem risk_chart_bars
  (sv : SortValues) (Hsv : sort_contract sv)
  (df : DataFrame) (selected_agent : string) :
  exists (xs : list string) (ys : list Q),
    update_risk_chart sv df selected_agent =
      Ok (mkFigure "Top 20 Agents by Risk Score" [ Bar xs ys ] []
            (Some "Agent") (Some "Risk Score (Lower is better)")) /\
    List.length xs = Nat.min 20 (total_agents df) /\
    List.length ys = Nat.min 20 (total_agents df) /\
    forall (c : string) (q : Q), In (c, q) (combine xs ys) ->
      exists r : AgentRecord,
        In r df /\ agent_code r = c /\ risk_score r = q.
Proof.
  destruct (Hsv risk_score false df) as [Hp _].
  do 2 eexists. split; [reflexivity |].
  assert (Hl : List.length (risk_ranking sv df) = Nat.min 20 (total_agents df)).
  { unfold risk_ranking, total_agents.
    now rewrite length_firstn, (Permutation_length Hp). }
  split; [unfold column; now rewrite length_map |].
  split; [unfold column; now rewrite length_map |].
  intros c q Hin. rewrite combine_columns in Hin.
  apply in_map_iff in Hin as (r & Heq & Hr).
  inversion Heq; subst. exists r. split; [| split; reflexivity].
  apply (Permutation_in r Hp). unfold risk_ranking in Hr.
  eapply in_head; exact Hr.
Qed.

Lemma risk_chart_bars_witness :
  exists (xs : list string) (ys : list Q),
    update_risk_chart reversing_sort_values df25 "A01" =
      Ok (mkFigure "Top 20 Agents by Risk Score" [ Bar xs ys ] []
            (Some "Agent") (Some "Risk Score (Lower is better)")) /\
    List.length xs = Nat.min 20 (total_agents df25) /\
    List.length ys = Nat.min 20 (total_agents df25) /\
    forall (c : string) (q : Q), In (c, q) (combine xs ys) ->
      exists r : AgentRecord,
        In r df25 /\ agent_code r = c /\ risk_score r = q.
Proof.
  exact (risk_chart_bars reversing_sort_values
           reversing_sort_values_contract df25 "A01").
Defined.

(** ** The intervention list *)

Lemma messages_distinct :
  NoDup [ Li msg_mentor; Li msg_proposal; Li msg_acceleration; Li msg_fallback ].
Proof.
  repeat constructor; cbn; intuition discriminate.
Qed.

Lemma rule_membership (r : AgentRecord) :
  (In (Li msg_mentor) (interventions r) <-> new_policy_count r < 3) /\
  (In (Li msg_proposal) (interventions r) <-> unique_proposal r < 10) /\
  (In (Li msg_acceleration) (interventions r) <-> months_to_first_sale r > 3).
Proof.
  unfold interventions.
  destruct (Z.ltb_spec (new_policy_count r) 3),
    (Z.ltb_spec (unique_proposal r) 10),
    (Z.gtb_spec (months_to_first_sale r) 3);
    cbn; repeat split; intros; try lia; try tauto;
    intuition discriminate.
Qed.

(** X9: the intervention list is never empty and never has more than
    three items, it repeats no message, and all its items come from the
    four fixed messages. *)
Theorem interventions_shape (r : AgentRecord) :
  (1 <= List.length (interventions r) <= 3)%nat /\
  NoDup (interventions r) /\
  incl (interventions r)
    [ Li msg_mentor; Li msg_proposal; Li msg_acceleration; Li msg_fallback ].
Proof.
  pose proof messages_distinct as Hd.
  inversion Hd as [| ? ? H1 Hd1]; subst.
  inversion Hd1 as [| ? ? H2 Hd2]; subst.
  inversion Hd2 as [| ? ? H3 Hd3]; subst.
  cbn [In] in H1, H2, H3.
  unfold interventions.
  destruct (new_policy_count r <? 3), (unique_proposal r <? 10),
    (months_to_first_sale r >? 3); cbn [app py_not List.length];
    (split; [lia |]); (split; [| intros c Hc; cbn [In] in *; tauto]);
    repeat constructor; cbn [In]; tauto.
Qed.

(** ** The derived frame *)

Lemma derive_row_fields
  (parse_sold parse_join : string -> option Timestamp) (r : RawRecord) :
  derive_row parse_sold parse_join r =
  Ok (mkAgent (csv_agent_code r) (csv_agent_join_month r)
        (csv_first_policy_sold_month r) (csv_new_policy_count r)
        (csv_unique_proposal r) (csv_net_income r)
        (months_to_first_sale_of parse_sold parse_join r)
        (risk_q (csv_new_policy_count r))).
Proof. reflexivity. Qed.

Lemma derive_rows
  (parse_sold parse_join : string -> option Timestamp) (rows : list RawRecord) :
  exists df : DataFrame,
    derive parse_sold parse_join rows = Ok df /\
    Forall2 (fun r a => derive_row parse_sold parse_join r = Ok a) rows df.
Proof.
  induction rows as [| r rest IH].
  - exists []. split; [reflexivity | constructor].
  - destruct IH as (d & Hd & Hf).
    eexists. cbn [derive]. rewrite derive_row_fields, Hd. cbn [bind].
    split; [reflexivity |].
    constructor; [apply derive_row_fields | exact Hf].
Qed.

(** X11: on a derived record the sales-acceleration message is given
    exactly when both date cells hold a text that is read as a date and
    the month number of the first sale exceeds that of the join date by
    more than 3; an empty cell, an unreadable text, or a sale in an earlier
    month number never gives it. *)
Theorem acceleration_rule_on_derived
  (parse_sold parse_join : string -> option Timestamp) (r : RawRecord) :
  exists a : AgentRecord,
    derive_row parse_sold parse_join r = Ok a /\
    (In (Li msg_acceleration) (interventions a) <->
     exists (s j : string) (sold joined : Timestamp),
       csv_first_policy_sold_month r = Some s /\
       csv_agent_join_month r = Some j /\
       parse_sold s = Some sold /\ parse_join j = Some joined /\
       month_number (ts_month sold) - month_number (ts_month joined) > 3).
Proof.
  eexists. split; [apply derive_row_fields |].
  match goal with
  | |- In _ (interventions ?a) <-> _ =>
      destruct (rule_membership a) as (_ & _ & Hacc)
  end.
  rewrite Hacc. clear Hacc. cbn [months_to_first_sale].
  unfold months_to_first_sale_of, to_datetime.
  destruct (csv_first_policy_sold_month r) as [s |].
  2: { cbn [dt_month nan_sub fillna]. split; [lia |].
       intros (s' & j' & sold' & joined' & Hs & _). discriminate. }
  destruct (csv_agent_join_month r) as [j |].
  2: { destruct (parse_sold s); cbn [dt_month nan_sub fillna];
       (split; [lia |]);
       intros (s' & j' & sold' & joined' & _ & Hj & _); discriminate. }
  destruct (parse_sold s) as [sold |] eqn:Hps.
  2: { cbn [dt_month nan_sub fillna]. split; [lia |].
       intros (s' & j' & sold' & joined' & Hs & _ & Hps' & _).
       inversion Hs; subst s'. congruence. }
  destruct (parse_join j) as [joined |] eqn:Hpj.
  2: { cbn [dt_month nan_sub fillna]. split; [lia |].
       intros (s' & j' & sold' & joined' & _ & Hj & _ & Hpj' & _).
       inversion Hj; subst j'. congruence. }
  cbn [dt_month nan_sub fillna]. split.
  - intro H. exists s, j, sold, joined. repeat split; assumption.
  - intros (s' & j' & sold' & joined' & Hs & Hj & Hps' & Hpj' & H).
    inversion Hs; inversion Hj; subst s' j'.
    rewrite Hps in Hps'. rewrite Hpj in Hpj'.
    inversion Hps'; inversion Hpj'; subst. exact H.
Qed.

(** Joined in January, first sale in June: the message is given. *)
Lemma acceleration_rule_on_derived_witness :
  exists a : AgentRecord,
    derive_row parse_year_month parse_year_month sample_raw_slow = Ok a /\
    In (Li msg_acceleration) (interventions a).
Proof.
  destruct (acceleration_rule_on_derived parse_year_month parse_year_month
              sample_raw_slow) as (a & Ha & Hiff).
  exists a. split; [exact Ha |]. apply Hiff.
  exists "2023-06", "2023-01", (mkTimestamp 2023 Jun 1), (mkTimestamp 2023 Jan 1).
  repeat split; cbn [ts_month month_number]; lia.
Defined.

(** No acceleration advice for the agent who joined in November and first
    sold in February. *)
Example acceleration_rule_sample :
  forall a : AgentRecord,
    derive_row parse_year_month parse_year_month sample_raw = Ok a ->
    ~ In (Li msg_acceleration) (interventions a).
Proof.
  intros a Ha. rewrite derive_row_fields in Ha. inversion Ha; subst a.
  intro H. apply rule_membership in H. vm_compute in H. discriminate.
Qed.

(** X12: on a record derived from a non-negative policy count the mentor
    message is given exactly when the stored risk score exceeds 7/10. *)
Theorem mentor_rule_on_derived
  (parse_sold parse_join : string -> option Timestamp) (r : RawRecord)
  (Hnonneg : 0 <= csv_new_policy_count r) :
  exists a : AgentRecord,
    derive_row parse_sold parse_join r = Ok a /\
    (In (Li msg_mentor) (interventions a) <-> (7 # 10 < risk_score a)%Q).
Proof.
  eexists. split; [apply derive_row_fields |].
  match goal with
  | |- In _ (interventions ?a) <-> _ =>
      destruct (rule_membership a) as (Hm & _ & _)
  end.
  rewrite Hm. cbn [new_policy_count risk_score].
  apply risk_q_mentor, Hnonneg.
Qed.

Lemma mentor_rule_on_derived_witness :
  exists a : AgentRecord,
    derive_row parse_year_month parse_year_month sample_raw_slow = Ok a /\
    (In (Li msg_mentor) (interventions a) <-> (7 # 10 < risk_score a)%Q).
Proof.
  apply (mentor_rule_on_derived parse_year_month parse_year_month
           sample_raw_slow).
  cbn. lia.
Defined.

(** ** The cards against the frame *)

Lemma top_performer_row (df : DataFrame) :
  df <> [] ->
  exists r : AgentRecord,
    In r df /\ top_performer df = Ok (agent_code r) /\
    forall r', In r' df -> new_policy_count r' <= new_policy_count r.
Proof.
  destruct df as [| r0 t]; [contradiction |]. intros _.
  destruct (idxmax_spec (new_policy_count r0) (column new_policy_count t))
    as (k & m & Hk & Hm & Hmax & _).
  change (new_policy_count r0 :: column new_policy_count t)
    with (column new_policy_count (r0 :: t)) in *.
  unfold column in Hm. rewrite nth_error_map in Hm.
  destruct (nth_error (r0 :: t) k) as [r |] eqn:Hr; [| discriminate].
  cbn [option_map] in Hm. inversion Hm as [Hmr].
  exists r. split; [eapply nth_error_In; exact Hr |]. split.
  - unfold top_performer. rewrite Hk. cbn [bind]. unfold loc.
    rewrite Hr. reflexivity.
  - intros r' Hin. apply In_nth_error in Hin as [j Hj].
    rewrite Hmr. apply (Hmax j).
    unfold column. rewrite nth_error_map, Hj. reflexivity.
Qed.

Lemma derived_risk
  (parse_sold parse_join : string -> option Timestamp)
  (rows : list RawRecord) (df : DataFrame) :
  Forall2 (fun r a => derive_row parse_sold parse_join r = Ok a) rows df ->
  Forall (fun r => 0 <= csv_new_policy_count r) rows ->
  forall a, In a df ->
    0 <= new_policy_count a /\ risk_score a = risk_q (new_policy_count a).
Proof.
  induction 1 as [| r a rest d Hra Hf IH]; intros Hpos b Hb; [contradiction |].
  inversion Hpos as [| ? ? Hr Hrest]; subst.
  destruct Hb as [<- | Hb]; [| apply IH; assumption].
  rewrite derive_row_fields in Hra. inversion Hra.
  cbn [new_policy_count risk_score]. split; [exact Hr | reflexivity].
Qed.

(** X13: in the frame derived from a non-empty input with non-negative
    policy counts, the agent shown as top performer has the lowest risk
    score of all records. *)
Theorem top_performer_lowest_risk
  (parse_sold parse_join : string -> option Timestamp)
  (rows : list RawRecord) (Hne : rows <> [])
  (Hnonneg : Forall (fun r => 0 <= csv_new_policy_count r) rows) :
  exists (df : DataFrame) (r : AgentRecord),
    derive parse_sold parse_join rows = Ok df /\
    In r df /\
    top_performer df = Ok (agent_code r) /\
    forall r', In r' df -> (risk_score r <= risk_score r')%Q.
Proof.
  destruct (derive_rows parse_sold parse_join rows) as (df & Hd & Hf).
  assert (Hdf : df <> []).
  { intros ->. inversion Hf; subst. contradiction. }
  destruct (top_performer_row df Hdf) as (r & Hin & Htop & Hmax).
  exists df, r. repeat split; try assumption.
  intros r' Hin'.
  destruct (derived_risk _ _ _ _ Hf Hnonneg r Hin) as [_ Er].
  destruct (derived_risk _ _ _ _ Hf Hnonneg r' Hin') as [Hp' Er'].
  rewrite Er, Er'. apply risk_q_antitone; [exact Hp' | apply Hmax, Hin'].
Qed.

Lemma top_performer_lowest_risk_witness :
  exists (df : DataFrame) (r : AgentRecord),
    derive parse_year_month parse_year_month sample_rows = Ok df /\
    In r df /\
    top_performer df = Ok (agent_code r) /\
    forall r', In r' df -> (risk_score r <= risk_score r')%Q.
Proof.
  apply (top_performer_lowest_risk parse_year_month parse_year_month
           sample_rows).
  - discriminate.
  - repeat constructor; cbn; lia.
Defined.

(** X15: only an empty frame breaks the cards: the average is NaN exactly
    when the frame is empty (whatever the order of summation), the
    top-performer lookup raises ValueError exactly then, and it raises
    nothing else on any frame. *)
Theorem cards_on_empty_frame (order : SumOrder) (df : DataFrame) :
  (avg_new_policies order df = None <-> df = []) /\
  (top_performer df = Err ValueError <-> df = []) /\
  (forall e : exception, top_performer df = Err e -> df = [] /\ e = ValueError).
Proof.
  assert (Hok : df <> [] -> forall e, top_performer df <> Err e).
  { intros Hne e He.
    destruct (top_performer_row df Hne) as (r & _ & Htop & _).
    rewrite Htop in He. discriminate. }
  split; [| split].
  - destruct df; split; intro H; try reflexivity; discriminate.
  - split.
    + intro H. destruct df as [| r t]; [reflexivity |].
      exfalso. apply (Hok ltac:(discriminate) ValueError H).
    + intros ->. reflexivity.
  - intros e He. destruct df as [| r t].
    + cbn in He. inversion He. split; reflexivity.
    + exfalso. apply (Hok ltac:(discriminate) e He).
Qed.
